(** * raid-status.py: the RAID registry, the handle scheme and the output parser

    A shallow embedding of [raid-status.py].  Python [str] values are Rocq
    strings whose characters are code points below 256; exceptions are an
    explicit error type threaded through a small error monad; everything
    the script asks of the machine (file tests, child processes, the
    contents of [/proc/mdstat]) is read from a [host] record, a snapshot of
    the machine during one invocation. *)

From Stdlib Require Import String Ascii List ZArith Lia Bool DecimalString.
Import ListNotations.

Local Open Scope list_scope.
Local Open Scope string_scope.

(** ** Exceptions and the error monad *)

(** Where an out-of-range subscript was evaluated.  Python reports both as
    [IndexError: list index out of range]; only the traceback tells them
    apart, which is what [origin] records. *)
Inductive origin : Type :=
| ValuePart   (* i.split(':', 1)[1]  in parse_by_colon *)
| FirstMatch  (* [...][0]            in parse_by_colon *)
| OtherSubscript.

Inductive exn : Type :=
| IndexError (o : origin)
| ValueError_unregistered (slug : string)
    (* raise ValueError("Handler for {} is not registered!".format(slug)) *)
| ValueError_unpack (got : nat)
    (* a, b = xs  where xs does not hold exactly two values *)
| TypeError_arity (given : nat)
    (* a constructor called with other than one positional argument *)
| HostError (what : string).
    (* OSError, CalledProcessError, UnicodeDecodeError *)

Inductive result (A : Type) : Type :=
| Ok (a : A)
| Raise (e : exn).

Arguments Ok {A} a.
Arguments Raise {A} e.

Definition bind {A B : Type} (m : result A) (k : A -> result B) : result B :=
  match m with
  | Ok a => k a
  | Raise e => Raise e
  end.

Notation "x <- m ;; k" := (bind m (fun x => k))
  (at level 61, m at next level, right associativity).

(** A list comprehension [[f(i) for i in xs]] whose body may raise: the
    elements are evaluated left to right and the first exception ends it. *)
Fixpoint mapM {A B : Type} (f : A -> result B) (xs : list A) : result (list B) :=
  match xs with
  | [] => Ok []
  | x :: rest =>
      y <- f x ;;
      ys <- mapM f rest ;;
      Ok (y :: ys)
  end.

(** [xs[n]] for a non-negative literal [n]. *)
Definition subscript {A : Type} (o : origin) (xs : list A) (n : nat) : result A :=
  match nth_error xs n with
  | Some a => Ok a
  | None => Raise (IndexError o)
  end.

(** ** Python string operations used by the script *)

(** [c.isspace()] on code points below 256: TAB, LF, VT, FF, CR, the four
    separators FS GS RS US, SPACE, NEL and NBSP. *)
Definition is_space (c : ascii) : bool :=
  let n := nat_of_ascii c in
  (Nat.leb 9 n && Nat.leb n 13) || (Nat.leb 28 n && Nat.leb n 32)
  || Nat.eqb n 133 || Nat.eqb n 160.

(** [c in s]. *)
Fixpoint contains (c : ascii) (s : string) : bool :=
  match s with
  | EmptyString => false
  | String d s' => Ascii.eqb d c || contains c s'
  end.

(** [s.split(sep)] for a one-character separator: never empty. *)
Fixpoint split (sep : ascii) (s : string) : list string :=
  match s with
  | EmptyString => [EmptyString]
  | String c s' =>
      if Ascii.eqb c sep then EmptyString :: split sep s'
      else match split sep s' with
           | [] => [String c EmptyString]
           | w :: ws => String c w :: ws
           end
  end.

(** The text before and after the first [sep], when there is one. *)
Fixpoint cut (sep : ascii) (s : string) : option (string * string) :=
  match s with
  | EmptyString => None
  | String c s' =>
      if Ascii.eqb c sep then Some (EmptyString, s')
      else match cut sep s' with
           | Some (a, b) => Some (String c a, b)
           | None => None
           end
  end.

(** [s.split(sep, 1)]: at most one split, so one or two pieces. *)
Definition split1 (sep : ascii) (s : string) : list string :=
  match cut sep s with
  | Some (a, b) => [a; b]
  | None => [s]
  end.

Fixpoint lstrip (s : string) : string :=
  match s with
  | EmptyString => EmptyString
  | String c s' => if is_space c then lstrip s' else s
  end.

Fixpoint rstrip (s : string) : string :=
  match s with
  | EmptyString => EmptyString
  | String c s' =>
      match rstrip s' with
      | EmptyString => if is_space c then EmptyString else String c EmptyString
      | r => String c r
      end
  end.

(** [s.strip()]. *)
Definition strip (s : string) : string := rstrip (lstrip s).

(** [str(i)] for an [int]. *)
Definition str_of_int (i : Z) : string := NilZero.string_of_int (Z.to_int i).

(** [range(n)]: empty when [n <= 0]. *)
Definition range (n : Z) : list Z := map Z.of_nat (seq 0 (Z.to_nat n)).

Definition LF : ascii := ascii_of_nat 10.
Definition TAB : ascii := ascii_of_nat 9.

(** Vocabulary of the design document, for stating what [stable_name]
    returns: whether a string holds a whitespace character, *)
Fixpoint has_space (s : string) : bool :=
  match s with
  | EmptyString => false
  | String c s' => is_space c || has_space s'
  end.

(** the characters up to the first whitespace character, *)
Fixpoint take_word (s : string) : string :=
  match s with
  | EmptyString => EmptyString
  | String c s' => if is_space c then EmptyString else String c (take_word s')
  end.

(** and the first whitespace-delimited token of a string (what
    [s.split()[0]] would be), when it has one. *)
Definition first_token (s : string) : option string :=
  match lstrip s with
  | EmptyString => None
  | t => Some (take_word t)
  end.

(** ** The output parser *)

(** The comprehension of [parse_by_colon]: for every line, in order, the
    filter [i.split(':', 1)[0].strip() == field_to_extract] is evaluated
    and, when it holds, the element [i.split(':', 1)[1].strip()]. *)
Fixpoint matching_values (field : string) (lines : list string)
  : result (list string) :=
  match lines with
  | [] => Ok []
  | i :: rest =>
      k <- subscript OtherSubscript (split1 ":" i) 0 ;;
      if String.eqb (strip k) field then
        v <- subscript ValuePart (split1 ":" i) 1 ;;
        vs <- matching_values field rest ;;
        Ok (strip v :: vs)
      else matching_values field rest
  end.

Definition parse_by_colon (string_to_parse field_to_extract : string)
  : result string :=
  vs <- matching_values field_to_extract (split LF string_to_parse) ;;
  subscript FirstMatch vs 0.

(** Vocabulary for the parser's contract.  The key of a line,
    [i.split(':', 1)[0].strip()]: the trimmed text before the first colon,
    or the whole trimmed line when it has none. *)
Definition line_key (i : string) : string :=
  strip (match cut ":" i with Some (a, _) => a | None => i end).

(** The trimmed text after the first colon, for a line that has one. *)
Definition line_value (i : string) : option string :=
  match cut ":" i with
  | Some (_, b) => Some (strip b)
  | None => None
  end.

(** The first line whose key is [field]. *)
Definition first_match (field : string) (lines : list string) : option string :=
  find (fun i => String.eqb (line_key i) field) lines.

(** A line with the key [field] and no colon. *)
Definition colonless_match (field i : string) : bool :=
  String.eqb (line_key i) field && negb (contains ":" i).

(** ** Classes, instances and the registry *)

(** The concrete subclasses of [RAID].  Each overrides [is_supported],
    [discover], [status] and [stable_name], so the defaults of the base
    class are never reached through the registry. *)
Inductive backend : Type :=
| MegaRAID_SAS
| SSA
| MD_RAID.

(** The class attribute [slug]. *)
Definition slug (c : backend) : string :=
  match c with
  | MegaRAID_SAS => "megaraid_sas"
  | SSA => "ssa"
  | MD_RAID => "md_raid"
  end.

(** An instance: its class and the attribute [self.name]. *)
Record raid : Type := mk_raid { cls : backend; name : string }.

(** [RAID.__str__]: ["{},{}".format(self.slug, self.name)]. *)
Definition RAID_str (x : raid) : string :=
  slug (cls x) ++ "," ++ name x.

(** [a, b = xs]. *)
Definition unpack2 {A : Type} (xs : list A) : result (A * A) :=
  match xs with
  | [a; b] => Ok (a, b)
  | _ => Raise (ValueError_unpack (length xs))
  end.

(** [__init__(self, name)] of each class.  [MegaRAID_SAS] overrides it and
    unpacks [self.name.split(':')] into two names; [SSA] and [MD_RAID]
    inherit [RAID.__init__], which only stores the name. *)
Definition init (c : backend) (nm : string) : result raid :=
  match c with
  | MegaRAID_SAS =>
      _ <- unpack2 (split ":" nm) ;;
      Ok (mk_raid MegaRAID_SAS nm)
  | SSA => Ok (mk_raid SSA nm)
  | MD_RAID => Ok (mk_raid MD_RAID nm)
  end.

(** The call [rcls] on the unpacked list [data]: exactly one positional argument beside [self]. *)
Definition construct (c : backend) (data : list string) : result raid :=
  match data with
  | [nm] => init c nm
  | _ => Raise (TypeError_arity (length data))
  end.

(** A Python [dict] with [str] keys: insertion-ordered, assignment to a key
    already present keeps its position. *)
Definition dict (V : Type) : Type := list (string * V).

Fixpoint dict_get {V : Type} (d : dict V) (k : string) : option V :=
  match d with
  | [] => None
  | (k', v) :: rest => if String.eqb k' k then Some v else dict_get rest k
  end.

Fixpoint dict_set {V : Type} (d : dict V) (k : string) (v : V) : dict V :=
  match d with
  | [] => [(k, v)]
  | (k', v') :: rest =>
      if String.eqb k' k then (k', v) :: rest
      else (k', v') :: dict_set rest k v
  end.

(** [RAID.register]: [cls.__registry[cls.slug] = cls]. *)
Definition register (c : backend) (reg : dict backend) : dict backend :=
  dict_set reg (slug c) c.

(** [RAID.__registry] once the module is loaded: the three [register()]
    calls that follow the class definitions, in file order. *)
Definition registry : dict backend :=
  register MD_RAID (register SSA (register MegaRAID_SAS [])).

(** [RAID.create]. *)
Definition RAID_create (serialized_name : string) : result raid :=
  match split "," serialized_name with
  | [] => Raise (IndexError OtherSubscript)       (* data.pop(0) *)
  | slug :: data =>
      match dict_get registry slug with
      | None => Raise (ValueError_unregistered slug)
      | Some rcls => construct rcls data
      end
  end.

(** ** The host *)

Inductive access_mode : Type := R_OK | X_OK.

(** What one invocation observes of the machine.  [check_output] stands
    for [subprocess.check_output(cmd, stderr=FNULL).decode('utf-8')]. *)
Record host : Type := mk_host {
  os_path_isfile : string -> bool;
  os_access : string -> access_mode -> bool;
  subprocess_call : list string -> result Z;
  check_output : list string -> result string;
  open_lines : string -> result (list string)
}.

Definition megacli : string := "/usr/sbin/megacli".
Definition ssacli : string := "/usr/sbin/ssacli".
Definition mdadm : string := "/sbin/mdadm".
Definition mdstat : string := "/proc/mdstat".

Definition is_supported (h : host) (c : backend) : bool :=
  match c with
  | MegaRAID_SAS =>
      if negb (os_path_isfile h megacli) then false
      else if negb (os_access h megacli X_OK) then false
      else true
  | SSA =>
      if negb (os_path_isfile h ssacli) then false
      else if negb (os_access h ssacli X_OK) then false
      else true
  | MD_RAID =>
      if negb (os_path_isfile h mdstat) then false
      else if negb (os_access h mdstat R_OK) then false
      else if negb (os_path_isfile h mdadm) then false
      else if negb (os_access h mdadm X_OK) then false
      else true
  end.

(** [XLATE_STATUS.get(status, status)] of the two classes that have one. *)
Definition SSA_XLATE_STATUS : dict string := [("OK", "Optimal")].

Definition MD_RAID_XLATE_STATUS : dict string :=
  dict_set (dict_set [] "clean" "Optimal") "active" "Optimal".

Definition dict_get_default {V : Type} (d : dict V) (k : string) (dflt : V) : V :=
  match dict_get d k with
  | Some v => v
  | None => dflt
  end.

Section Backends.

(** [re.compile(pattern).match(line)]: [Some g] when it matches, with [g]
    the text of [m.group(1)].  The regular-expression engine is a library
    of the interpreter; nothing below depends on which lines match. *)
Variable re_match : string -> string -> option string.

(** The lines a pattern matches, each reduced to its first group. *)
Fixpoint matched_groups (pattern : string) (lines : list string) : list string :=
  match lines with
  | [] => []
  | l :: rest =>
      match re_match pattern l with
      | Some g => g :: matched_groups pattern rest
      | None => matched_groups pattern rest
      end
  end.

Definition MegaRAID_SAS_discover (h : host) : result (list raid) :=
  raids_count <- subprocess_call h [megacli; "-ldgetnum"; "-a0"] ;;
  mapM (fun i => construct MegaRAID_SAS [str_of_int 0 ++ ":" ++ str_of_int i])
       (range raids_count).

(** The second loop of [SSA.discover]: one listing per controller slot. *)
Fixpoint SSA_arrays (h : host) (ctrls : list string)
    (arrays : list (string * string)) : result (list (string * string)) :=
  match ctrls with
  | [] => Ok arrays
  | i :: rest =>
      out <- check_output h [ssacli; "ctrl"; "slot=" ++ i; "array"; "all"; "show"] ;;
      SSA_arrays h rest
        (arrays ++ map (fun g => (i, g))
                       (matched_groups ".*Array ([A-Z]) \(" (split LF out)))%list
  end.

Definition SSA_discover (h : host) : result (list raid) :=
  out <- check_output h [ssacli; "ctrl"; "all"; "show"] ;;
  let ctrls := matched_groups "Smart Array .+ in Slot (\d+).+" (split LF out) in
  arrays <- SSA_arrays h ctrls [] ;;
  mapM (fun i => construct SSA [fst i ++ ":" ++ snd i]) arrays.

Definition MD_RAID_discover (h : host) : result (list raid) :=
  mdstat_file <- open_lines h mdstat ;;
  let arrays := matched_groups "^md(\d+)\s+:" mdstat_file in
  mapM (fun i => construct MD_RAID [i]) arrays.

Definition discover (h : host) (c : backend) : result (list raid) :=
  match c with
  | MegaRAID_SAS => MegaRAID_SAS_discover h
  | SSA => SSA_discover h
  | MD_RAID => MD_RAID_discover h
  end.

(** The loop of [RAID.discover] over [cls.__registry.items()]. *)
Fixpoint discover_loop (h : host) (items : dict backend) (discovered : list raid)
  : result (list raid) :=
  match items with
  | [] => Ok discovered
  | (_, rcls) :: rest =>
      if is_supported h rcls then
        found <- discover h rcls ;;
        discover_loop h rest (discovered ++ found)%list
      else discover_loop h rest discovered
  end.

Definition RAID_discover (h : host) : result (list raid) :=
  discover_loop h registry [].

(** Discovery as the design describes it: the supported classes among the
    registered ones, in registration order, each asked for its arrays, and
    the answers concatenated. *)
Definition discoverAll (h : host) : result (list raid) :=
  found <- mapM (discover h)
                (filter (is_supported h) (map snd registry)) ;;
  Ok (concat found).

End Backends.

(** [MegaRAID_SAS.__ldinfo]. *)
Definition MegaRAID_SAS_ldinfo (h : host) (x : raid) : result string :=
  p <- unpack2 (split ":" (name x)) ;;
  check_output h [megacli; "-ldinfo"; "-l" ++ snd p; "-a" ++ fst p].

(** [MD_RAID.__detail]. *)
Definition MD_RAID_detail (h : host) (x : raid) : result string :=
  check_output h [mdadm; "--detail"; "/dev/md" ++ name x].

Definition MegaRAID_SAS_status (h : host) (x : raid) : result string :=
  out <- MegaRAID_SAS_ldinfo h x ;;
  parse_by_colon out "State".

Definition SSA_status (h : host) (x : raid) : result string :=
  p <- unpack2 (split ":" (name x)) ;;
  out <- check_output h
           [ssacli; "ctrl"; "slot=" ++ fst p; "array"; snd p; "show"; "detail"] ;;
  status <- parse_by_colon out "Status" ;;
  Ok (dict_get_default SSA_XLATE_STATUS status status).

Definition MD_RAID_status (h : host) (x : raid) : result string :=
  out <- MD_RAID_detail h x ;;
  status <- parse_by_colon out "State" ;;
  Ok (dict_get_default MD_RAID_XLATE_STATUS status status).

(** The property [status], dispatched on the instance's class. *)
Definition status (h : host) (x : raid) : result string :=
  match cls x with
  | MegaRAID_SAS => MegaRAID_SAS_status h x
  | SSA => SSA_status h x
  | MD_RAID => MD_RAID_status h x
  end.

Definition MD_RAID_stable_name (h : host) (x : raid) : result string :=
  out <- MD_RAID_detail h x ;;
  nm <- parse_by_colon out "Name" ;;
  subscript OtherSubscript (split1 " " nm) 0.

(** The property [stable_name], dispatched on the instance's class. *)
Definition stable_name (h : host) (x : raid) : result string :=
  match cls x with
  | MegaRAID_SAS =>
      out <- MegaRAID_SAS_ldinfo h x ;;
      parse_by_colon out "Name"
  | SSA => Ok (name x)
  | MD_RAID => MD_RAID_stable_name h x
  end.

(** ** Registration in any order *)

(** The registry after the calls [c.register()] for the classes of [regs],
    made in that order on the empty registry. *)
Definition registry_of (regs : list backend) : dict backend :=
  fold_left (fun reg c => register c reg) regs [].

(** ** The dispatcher functions *)

Definition QUOTE : ascii := ascii_of_nat 34.
Definition BACKSLASH : ascii := ascii_of_nat 92.

(** One lower-case hexadecimal digit, as ['{:x}'] prints it. *)
Definition hex_digit (n : nat) : ascii :=
  ascii_of_nat (if Nat.ltb n 10 then 48 + n else 87 + n).

(** What [json.dumps] writes for one character of a string, with its
    default [ensure_ascii=True]: the two-character escapes of the quote,
    the backslash and of BS, TAB, LF, FF, CR; the character itself from
    SPACE to TILDE; [\u00xx] for the others. *)
Definition json_escape_char (c : ascii) : string :=
  let n := nat_of_ascii c in
  if Nat.eqb n 34 then String BACKSLASH (String QUOTE "")
  else if Nat.eqb n 92 then String BACKSLASH (String BACKSLASH "")
  else if Nat.eqb n 10 then "\n"
  else if Nat.eqb n 13 then "\r"
  else if Nat.eqb n 9 then "\t"
  else if Nat.eqb n 8 then "\b"
  else if Nat.eqb n 12 then "\f"
  else if Nat.leb 32 n && Nat.leb n 126 then String c ""
  else "\u00" ++ String (hex_digit (n / 16)) (String (hex_digit (n mod 16)) "").

Fixpoint json_escape (s : string) : string :=
  match s with
  | EmptyString => EmptyString
  | String c s' => json_escape_char c ++ json_escape s'
  end.

(** [json.dumps(s)] for a [str]. *)
Definition json_str (s : string) : string :=
  String QUOTE (json_escape s ++ String QUOTE "").

(** [json.dumps] of one [{'{#RAIDINDEX}': index, '{#RAIDNAME}': nm}]. *)
Definition json_row (row : string * string) : string :=
  "{" ++ json_str "{#RAIDINDEX}" ++ ": " ++ json_str (fst row) ++ ", "
      ++ json_str "{#RAIDNAME}" ++ ": " ++ json_str (snd row) ++ "}".

(** [json.dumps({'data': rows})], with the default separators. *)
Definition json_dumps_data (rows : list (string * string)) : string :=
  "{" ++ json_str "data" ++ ": [" ++ String.concat ", " (map json_row rows) ++ "]}".

(** The element of the comprehension of [zabbix_discover] for the
    instance [i]: [str(i)], then [i.stable_name]. *)
Definition discovery_row (h : host) (i : raid) : result (string * string) :=
  nm <- stable_name h i ;;
  Ok (RAID_str i, nm).

Section Dispatcher.

Variable re_match : string -> string -> option string.

(** [zabbix_discover]: the text handed to [print]. *)
Definition zabbix_discover (h : host) : result string :=
  found <- RAID_discover re_match h ;;
  rows <- mapM (discovery_row h) found ;;
  Ok (json_dumps_data rows).

End Dispatcher.

(** [zabbix_status]: the text handed to [print]. *)
Definition zabbix_status (h : host) (nm : string) : result string :=
  x <- RAID_create nm ;;
  status h x.

(** [zabbix_stable_name]: the text handed to [print]. *)
Definition zabbix_stable_name (h : host) (nm : string) : result string :=
  x <- RAID_create nm ;;
  stable_name h x.

(** Whether every character of a string satisfies a test. *)
Fixpoint all_chars (p : ascii -> bool) (s : string) : bool :=
  match s with
  | EmptyString => true
  | String c s' => p c && all_chars p s'
  end.

(** The characters from SPACE to TILDE. *)
Definition printable (c : ascii) : bool :=
  Nat.leb 32 (nat_of_ascii c) && Nat.leb (nat_of_ascii c) 126.

(** ** Sample hosts *)

(** ["\n".join(lines)]. *)
Definition text_of_lines (ls : list string) : string :=
  String.concat (String LF "") ls.

(** A host with no vendor tool and no [/proc/mdstat]: nothing is supported
    and every child process fails to start. *)
Definition bare_host : host :=
  mk_host (fun _ => false) (fun _ _ => false)
          (fun _ => Raise (HostError "No such file or directory"))
          (fun _ => Raise (HostError "No such file or directory"))
          (fun _ => Raise (HostError "No such file or directory")).

(** A host whose [megacli] reports three logical disks by its exit status. *)
Definition three_disk_host : host :=
  mk_host (fun p => String.eqb p megacli) (fun p _ => String.eqb p megacli)
          (fun _ => Ok 3%Z)
          (fun _ => Raise (HostError "not used"))
          (fun _ => Raise (HostError "not used")).

(** [mdadm --detail] texts. *)
Definition md_detail_clean : string :=
  text_of_lines ["/dev/md0:";
                 "        Version : 1.2";
                 "          State : clean ";
                 "           Name : homehost:arrayname extra";
                 ""].

Definition md_detail_degraded : string :=
  text_of_lines ["/dev/md0:";
                 "          State : degraded";
                 "           Name : homehost:arrayname";
                 ""].

(** As [md_detail_clean], with a TAB after the name. *)
Definition md_detail_tab : string :=
  text_of_lines ["/dev/md0:";
                 "          State : clean ";
                 "           Name : homehost:arrayname" ++ String TAB "extra more";
                 ""].

(** A host with one MD array, [md0], and no vendor controller. *)
Definition md_host (detail : string) : host :=
  mk_host (fun p => String.eqb p mdstat || String.eqb p mdadm)
          (fun p _ => String.eqb p mdstat || String.eqb p mdadm)
          (fun _ => Raise (HostError "No such file or directory"))
          (fun _ => Ok detail)
          (fun p => if String.eqb p mdstat
                    then Ok ["Personalities : [raid1] " ++ String LF "";
                             "md0 : active raid1 sdb1[1] sda1[0]" ++ String LF "";
                             "unused devices: <none>" ++ String LF ""]
                    else Raise (HostError "No such file or directory")).

(** The outcome of the engine on the lines of [md_host]: only the line of
    [md0] matches the [mdstat] pattern. *)
Definition md_host_re_match (pattern line : string) : option string :=
  if String.eqb pattern "^md(\d+)\s+:" && String.prefix "md0 " line
  then Some "0" else None.

(** [ssacli ... show detail] texts. *)
Definition ssa_detail (status_value : string) : string :=
  text_of_lines ["";
                 "Smart Array P440ar in Slot 0 (Embedded)";
                 "";
                 "   Array: A";
                 "      Interface Type: SAS";
                 "      Status: " ++ status_value;
                 ""].

Definition ssa_host (detail : string) : host :=
  mk_host (fun p => String.eqb p ssacli) (fun p _ => String.eqb p ssacli)
          (fun _ => Raise (HostError "No such file or directory"))
          (fun _ => Ok detail)
          (fun _ => Raise (HostError "No such file or directory")).

(** [megacli -ldinfo] text of a logical disk. *)
Definition ldinfo_text : string :=
  text_of_lines ["";
                 "Adapter 0 -- Virtual Drive Information:";
                 "Virtual Drive: 1 (Target Id: 1)";
                 "Name                :data";
                 "RAID Level          : Primary-1, Secondary-0, RAID Level Qualifier-0";
                 "State               : Degraded";
                 ""].

(** A host with a MegaRAID controller holding three logical disks. *)
Definition megaraid_host : host :=
  mk_host (fun p => String.eqb p megacli) (fun p _ => String.eqb p megacli)
          (fun _ => Ok 3%Z)
          (fun _ => Ok ldinfo_text)
          (fun _ => Raise (HostError "No such file or directory")).

(** A host with one Smart Array controller in slot 0 holding the arrays A
    and B: the answer to [ctrl all show], and to [ctrl slot=0 array all show]. *)
Definition ssa_listing_host : host :=
  mk_host (fun p => String.eqb p ssacli) (fun p _ => String.eqb p ssacli)
          (fun _ => Raise (HostError "No such file or directory"))
          (fun cmd =>
             if String.eqb (nth 2 cmd "") "all"
             then Ok (text_of_lines
                        [""; "Smart Array P440ar in Slot 0 (Embedded)"; ""])
             else Ok (text_of_lines
                        [""; "Smart Array P440ar in Slot 0 (Embedded)"; "";
                         "   Array A (SAS, Unused Space: 0  MB)"; "";
                         "   Array B (SAS, Unused Space: 0  MB)"; ""]))
          (fun _ => Raise (HostError "No such file or directory")).

(** The outcome of the engine on the lines of [ssa_listing_host]. *)
Definition ssa_host_re_match (pattern line : string) : option string :=
  if String.eqb pattern "Smart Array .+ in Slot (\d+).+" then
    if String.prefix "Smart Array P440ar in Slot 0 " line then Some "0" else None
  else if String.eqb pattern ".*Array ([A-Z]) \(" then
    if String.prefix "   Array A (" line then Some "A"
    else if String.prefix "   Array B (" line then Some "B"
    else None
  else None.

(** * Properties *)

(** ** The error monad and list comprehensions *)

Lemma bind_Ok_inv {A B : Type} (m : result A) (k : A -> result B) (b : B) :
  bind m k = Ok b -> exists a, m = Ok a /\ k a = Ok b.
Proof.
  destruct m as [a | e]; simpl; intros H; [exists a; auto | discriminate].
Qed.

(** Turns [H : (x <- m ;; k) = Ok b] into the two successful steps. *)
Ltac bind_inv H :=
  let a := fresh "a" in
  let Hm := fresh "Hm" in
  apply bind_Ok_inv in H; destruct H as (a & Hm & H).

Lemma mapM_pointwise {A B : Type} (f : A -> result B) (g : A -> B) (xs : list A) :
  (forall x, In x xs -> f x = Ok (g x)) -> mapM f xs = Ok (map g xs).
Proof.
  induction xs as [| x rest IH]; intros Hf; simpl; [reflexivity |].
  rewrite (Hf x (or_introl eq_refl)); simpl.
  rewrite IH by (intros y Hy; apply Hf; right; exact Hy).
  reflexivity.
Qed.

Lemma mapM_In {A B : Type} (f : A -> result B) (xs : list A) (ys : list B) :
  mapM f xs = Ok ys ->
  forall y, In y ys -> exists x, In x xs /\ f x = Ok y.
Proof.
  revert ys; induction xs as [| x rest IH]; simpl; intros ys H y Hy.
  - inversion H; subst; destruct Hy.
  - apply bind_Ok_inv in H; destruct H as (y0 & Hy0 & H).
    apply bind_Ok_inv in H; destruct H as (ys0 & Hys0 & H).
    inversion H; subst; clear H.
    destruct Hy as [<- | Hy].
    + exists x; auto.
    + destruct (IH ys0 Hys0 y Hy) as (x' & Hin & Hx').
      exists x'; auto.
Qed.

(** ** Splitting *)

Lemma split_not_nil (sep : ascii) (s : string) : split sep s <> [].
Proof.
  destruct s as [| c s']; simpl; [discriminate |].
  destruct (Ascii.eqb c sep); [discriminate |].
  destruct (split sep s'); discriminate.
Qed.

Lemma split_without_sep (sep : ascii) (s : string) :
  contains sep s = false -> split sep s = [s].
Proof.
  induction s as [| c s' IH]; simpl; [reflexivity |].
  intros H; apply orb_false_elim in H; destruct H as [Hc Hs].
  rewrite Hc, (IH Hs); reflexivity.
Qed.

Lemma split_with_sep (sep : ascii) (s : string) :
  contains sep s = true -> (2 <= length (split sep s))%nat.
Proof.
  induction s as [| c s' IH]; simpl; [discriminate |].
  destruct (Ascii.eqb c sep) eqn:Hc; simpl; intros H.
  - pose proof (split_not_nil sep s') as Hn.
    destruct (split sep s'); [contradiction | simpl; lia].
  - specialize (IH H). destruct (split sep s'); simpl in *; lia.
Qed.

Lemma split_app (sep : ascii) (a b : string) :
  contains sep a = false ->
  split sep (a ++ String sep b) = a :: split sep b.
Proof.
  induction a as [| c a' IH]; simpl; intros H.
  - rewrite Ascii.eqb_refl; reflexivity.
  - apply orb_false_elim in H; destruct H as [Hc Ha].
    rewrite Hc, (IH Ha); reflexivity.
Qed.

Lemma split_single_iff (sep : ascii) (s : string) :
  length (split sep s) = 1%nat <-> contains sep s = false.
Proof.
  split.
  - intros H; destruct (contains sep s) eqn:Hc; [| reflexivity].
    apply split_with_sep in Hc; lia.
  - intros H; rewrite (split_without_sep _ _ H); reflexivity.
Qed.

Lemma cut_None_iff (sep : ascii) (s : string) :
  cut sep s = None <-> contains sep s = false.
Proof.
  induction s as [| c s' IH]; simpl; [tauto |].
  destruct (Ascii.eqb c sep); simpl; [split; discriminate |].
  destruct (cut sep s') as [[a b] |]; [| tauto].
  split; [discriminate |].
  intros H; apply IH in H; discriminate.
Qed.

Lemma cut_Some (sep : ascii) (s a b : string) :
  cut sep s = Some (a, b) ->
  s = a ++ String sep b /\ contains sep a = false.
Proof.
  revert a; induction s as [| c s' IH]; simpl; intros a H; [discriminate |].
  destruct (Ascii.eqb c sep) eqn:Hc.
  - inversion H; subst; clear H.
    apply Ascii.eqb_eq in Hc; subst; auto.
  - destruct (cut sep s') as [[a' b'] |]; [| discriminate].
    inversion H; subst; clear H.
    destruct (IH a' eq_refl) as [-> Ha].
    simpl; rewrite Hc, Ha; auto.
Qed.

(** ** Decimal numerals contain no separator *)

Lemma uint_digits_no_colon (d : Decimal.uint) :
  contains ":" (NilEmpty.string_of_uint d) = false.
Proof.
  induction d; simpl; auto.
Qed.

Lemma str_of_int_no_colon (i : Z) : contains ":" (str_of_int i) = false.
Proof.
  unfold str_of_int.
  destruct (Z.to_int i) as [d | d]; simpl.
  - destruct d; simpl; auto using uint_digits_no_colon.
  - destruct d; simpl; auto using uint_digits_no_colon.
Qed.

(** ** The registry *)

Lemma registry_items :
  registry = [("megaraid_sas", MegaRAID_SAS); ("ssa", SSA); ("md_raid", MD_RAID)].
Proof. reflexivity. Qed.

Lemma registry_slug (c : backend) : dict_get registry (slug c) = Some c.
Proof. destruct c; reflexivity. Qed.

Lemma registry_get_slug (k : string) (c : backend) :
  dict_get registry k = Some c -> k = slug c.
Proof.
  rewrite registry_items; cbn [dict_get].
  destruct (String.eqb_spec "megaraid_sas" k) as [<- |];
    [intros H; inversion H; reflexivity |].
  destruct (String.eqb_spec "ssa" k) as [<- |];
    [intros H; inversion H; reflexivity |].
  destruct (String.eqb_spec "md_raid" k) as [<- |];
    [intros H; inversion H; reflexivity | discriminate].
Qed.

Lemma slug_no_comma (c : backend) : contains "," (slug c) = false.
Proof. destruct c; reflexivity. Qed.

Lemma init_Ok (c : backend) (nm : string) (x : raid) :
  init c nm = Ok x -> x = mk_raid c nm.
Proof.
  destruct c; simpl; intros H.
  - apply bind_Ok_inv in H; destruct H as (p & _ & H); inversion H; reflexivity.
  - inversion H; reflexivity.
  - inversion H; reflexivity.
Qed.

Lemma construct_Ok (c : backend) (data : list string) (x : raid) :
  construct c data = Ok x -> exists nm, data = [nm] /\ x = mk_raid c nm.
Proof.
  destruct data as [| nm [| ? ?]]; simpl; try discriminate.
  intros H; exists nm; split; [reflexivity | exact (init_Ok _ _ _ H)].
Qed.

Lemma handle_split (c : backend) (nm : string) :
  contains "," nm = false ->
  split "," (slug c ++ "," ++ nm) = [slug c; nm].
Proof.
  intros H.
  change (slug c ++ "," ++ nm) with (slug c ++ String "," nm).
  rewrite (split_app _ _ _ (slug_no_comma c)), (split_without_sep _ _ H).
  reflexivity.
Qed.

(** C1.  A handle resolves to the instance it was printed from: for every
    class [c] and every name [nm] without a comma that the constructor of
    [c] accepts, giving the instance [x], [RAID.create(str(x))] returns an
    instance of the same class with the same name (so it is [x]), whose
    handle is again [str(x)]. *)
Theorem create_str_round_trip (c : backend) (nm : string) (x : raid) :
  init c nm = Ok x ->
  contains "," nm = false ->
  exists y, RAID_create (RAID_str x) = Ok y
            /\ cls y = cls x /\ name y = name x
            /\ RAID_str y = RAID_str x.
Proof.
  intros Hx Hnm.
  pose proof (init_Ok _ _ _ Hx) as E.
  exists x. split; [| auto].
  unfold RAID_create, RAID_str. rewrite E; simpl cls; simpl name.
  rewrite (handle_split c nm Hnm), registry_slug.
  simpl. rewrite <- E. exact Hx.
Qed.

Lemma create_str_round_trip_witness :
  exists y, RAID_create (RAID_str (mk_raid MegaRAID_SAS "0:2")) = Ok y
            /\ cls y = MegaRAID_SAS /\ name y = "0:2"
            /\ RAID_str y = "megaraid_sas,0:2".
Proof.
  apply (create_str_round_trip MegaRAID_SAS "0:2" (mk_raid MegaRAID_SAS "0:2"));
    reflexivity.
Defined.

(** ** Resolution of handles *)

Lemma construct_not_unregistered (c : backend) (data : list string) (k : string) :
  construct c data <> Raise (ValueError_unregistered k).
Proof.
  destruct data as [| nm [| ? ?]]; simpl; try discriminate.
  destruct c; simpl; try discriminate.
  destruct (split ":" nm) as [| a [| b [| ? ?]]]; simpl; discriminate.
Qed.

Lemma create_unfold (s : string) :
  RAID_create s =
  match dict_get registry (hd "" (split "," s)) with
  | None => Raise (ValueError_unregistered (hd "" (split "," s)))
  | Some rcls => construct rcls (tl (split "," s))
  end.
Proof.
  unfold RAID_create.
  pose proof (split_not_nil "," s) as Hn.
  destruct (split "," s) as [| sl data]; [contradiction | reflexivity].
Qed.

(** C6.  [RAID.create] raises the "not registered" [ValueError] exactly
    when the first comma-separated field of the handle is not a key of the
    registry, and then names that field; when the field is the slug of a
    registered class, the result is that of calling the class on the
    remaining fields, whatever [is_supported()] says on the host. *)
Theorem create_unknown_backend (s : string) :
  let sl := hd "" (split "," s) in
  ((exists k, RAID_create s = Raise (ValueError_unregistered k))
     <-> dict_get registry sl = None)
  /\ (dict_get registry sl = None ->
        RAID_create s = Raise (ValueError_unregistered sl))
  /\ (forall (c : backend) (h : host),
        dict_get registry sl = Some c ->
        is_supported h c = false ->
        RAID_create s = construct c (tl (split "," s))).
Proof.
  intros sl. rewrite create_unfold. fold sl.
  destruct (dict_get registry sl) as [c |] eqn:Hget.
  - split; [| split].
    + split; [| discriminate].
      intros [k Hk]. exfalso. exact (construct_not_unregistered _ _ _ Hk).
    + discriminate.
    + intros c' h Hc _. inversion Hc; reflexivity.
  - split; [| split].
    + split; [reflexivity | intros _; eexists; reflexivity].
    + reflexivity.
    + discriminate.
Qed.

Lemma create_unknown_backend_witness :
  RAID_create "unknown_slug,1" = Raise (ValueError_unregistered "unknown_slug")
  /\ is_supported bare_host SSA = false
  /\ RAID_create "ssa,0:A" = Ok (mk_raid SSA "0:A").
Proof.
  split; [| split].
  - exact (proj1 (proj2 (create_unknown_backend "unknown_slug,1")) eq_refl).
  - reflexivity.
  - exact (proj2 (proj2 (create_unknown_backend "ssa,0:A"))
             SSA bare_host eq_refl eq_refl).
Defined.

(** C10.  For a handle whose slug is registered, [RAID.create] fails with
    the constructor's arity [TypeError] whenever the fields after the slug
    are not exactly one; with one field [nm], [megaraid_sas] succeeds only
    if [nm.split(':')] has exactly two parts and otherwise fails with the
    unpacking [ValueError]; [ssa] and [md_raid] accept every [nm]. *)
Theorem create_handle_shape (s sl : string) (data : list string) (c : backend) :
  split "," s = sl :: data ->
  dict_get registry sl = Some c ->
  (length data <> 1%nat ->
     RAID_create s = Raise (TypeError_arity (length data)))
  /\ (forall nm, data = [nm] -> c = MegaRAID_SAS ->
        (length (split ":" nm) = 2%nat ->
           RAID_create s = Ok (mk_raid MegaRAID_SAS nm))
        /\ (length (split ":" nm) <> 2%nat ->
              RAID_create s = Raise (ValueError_unpack (length (split ":" nm)))))
  /\ (forall nm, data = [nm] -> c = SSA \/ c = MD_RAID ->
        RAID_create s = Ok (mk_raid c nm)).
Proof.
  intros Hs Hc. unfold RAID_create. rewrite Hs, Hc.
  split; [| split].
  - intros Hlen. destruct data as [| nm [| ? ?]]; simpl in *;
      [reflexivity | contradiction | reflexivity].
  - intros nm -> ->. simpl.
    destruct (split ":" nm) as [| a [| b [| ? ?]]]; simpl;
      split; intros H; try reflexivity; try discriminate; contradiction.
  - intros nm -> [-> | ->]; reflexivity.
Qed.

Lemma create_handle_shape_witness :
  RAID_create "md_raid,1,2" = Raise (TypeError_arity 2)
  /\ RAID_create "megaraid_sas,0" = Raise (ValueError_unpack 1)
  /\ RAID_create "megaraid_sas,0:1" = Ok (mk_raid MegaRAID_SAS "0:1")
  /\ RAID_create "ssa,no colon here" = Ok (mk_raid SSA "no colon here").
Proof.
  split; [| split; [| split]].
  - apply (proj1 (create_handle_shape "md_raid,1,2" "md_raid" ["1"; "2"] MD_RAID
                    eq_refl eq_refl)).
    simpl; lia.
  - apply (proj2 (proj1 (proj2 (create_handle_shape "megaraid_sas,0" "megaraid_sas"
                    ["0"] MegaRAID_SAS eq_refl eq_refl)) "0" eq_refl eq_refl)).
    simpl; lia.
  - apply (proj1 (proj1 (proj2 (create_handle_shape "megaraid_sas,0:1" "megaraid_sas"
                    ["0:1"] MegaRAID_SAS eq_refl eq_refl)) "0:1" eq_refl eq_refl)).
    reflexivity.
  - apply (proj2 (proj2 (create_handle_shape "ssa,no colon here" "ssa"
                    ["no colon here"] SSA eq_refl eq_refl)) "no colon here" eq_refl).
    left; reflexivity.
Defined.

(** ** Discovery *)

Lemma megaraid_init_index (i : Z) :
  construct MegaRAID_SAS [str_of_int 0 ++ ":" ++ str_of_int i]
  = Ok (mk_raid MegaRAID_SAS ("0:" ++ str_of_int i)).
Proof.
  unfold construct, init.
  change (str_of_int 0 ++ ":" ++ str_of_int i) with ("0" ++ String ":" (str_of_int i)).
  rewrite (split_app ":" "0" (str_of_int i) eq_refl).
  rewrite (split_without_sep _ _ (str_of_int_no_colon i)).
  reflexivity.
Qed.

(** C4.  When the [megacli -ldgetnum -a0] child exits with status [n >= 0],
    [MegaRAID_SAS.discover()] returns the [n] instances named ["0:0"] to
    ["0:(n-1)"], in increasing order, with handles ["megaraid_sas,0:i"];
    for [n = 0] it returns the empty list. *)
Theorem MegaRAID_SAS_discover_exit_code (h : host) (n : Z) :
  subprocess_call h [megacli; "-ldgetnum"; "-a0"] = Ok n ->
  (0 <= n)%Z ->
  let names := map (fun i => "0:" ++ str_of_int (Z.of_nat i)) (seq 0 (Z.to_nat n)) in
  MegaRAID_SAS_discover h = Ok (map (mk_raid MegaRAID_SAS) names)
  /\ length names = Z.to_nat n
  /\ map RAID_str (map (mk_raid MegaRAID_SAS) names)
     = map (fun nm => "megaraid_sas," ++ nm) names
  /\ (n = 0%Z -> MegaRAID_SAS_discover h = Ok []).
Proof.
  intros Hcall Hn names.
  assert (E : MegaRAID_SAS_discover h = Ok (map (mk_raid MegaRAID_SAS) names)).
  { unfold MegaRAID_SAS_discover. rewrite Hcall. simpl bind.
    unfold names, range. rewrite !map_map.
    rewrite (mapM_pointwise _
      (fun i => mk_raid MegaRAID_SAS ("0:" ++ str_of_int i))).
    - rewrite map_map. reflexivity.
    - intros i _. apply megaraid_init_index. }
  split; [exact E |]. split; [| split].
  - unfold names. rewrite length_map, length_seq. reflexivity.
  - rewrite map_map. reflexivity.
  - intros ->. rewrite E. reflexivity.
Qed.

Lemma MegaRAID_SAS_discover_exit_code_witness :
  MegaRAID_SAS_discover three_disk_host
  = Ok [mk_raid MegaRAID_SAS "0:0"; mk_raid MegaRAID_SAS "0:1";
        mk_raid MegaRAID_SAS "0:2"].
Proof.
  apply (MegaRAID_SAS_discover_exit_code three_disk_host 3 eq_refl); lia.
Defined.

Section Aggregation.

Variable re_match : string -> string -> option string.

Lemma discover_loop_concat (h : host) (items : dict backend) (acc : list raid) :
  discover_loop re_match h items acc
  = (found <- mapM (discover re_match h)
                   (filter (is_supported h) (map snd items)) ;;
     Ok (acc ++ concat found)%list).
Proof.
  revert acc; induction items as [| [k rcls] rest IH]; intros acc; simpl.
  - rewrite app_nil_r; reflexivity.
  - destruct (is_supported h rcls); simpl; [| apply IH].
    destruct (discover re_match h rcls) as [xs | e]; simpl; [| reflexivity].
    rewrite IH.
    destruct (mapM (discover re_match h)
                (filter (is_supported h) (map snd rest))) as [xss | e];
      simpl; [| reflexivity].
    rewrite app_assoc; reflexivity.
Qed.

Lemma mapM_construct_cls (c : backend) {A : Type} (f : A -> list string)
    (args : list A) (xs : list raid) :
  mapM (fun a => construct c (f a)) args = Ok xs ->
  forall x, In x xs -> cls x = c.
Proof.
  intros H x Hx.
  destruct (mapM_In _ _ _ H x Hx) as (a & _ & Ha).
  apply construct_Ok in Ha. destruct Ha as (nm & _ & ->). reflexivity.
Qed.

(** Every instance a class discovers is an instance of that class. *)
Lemma discover_cls (h : host) (c : backend) (xs : list raid) :
  discover re_match h c = Ok xs -> forall x, In x xs -> cls x = c.
Proof.
  destruct c; simpl; intros H.
  - unfold MegaRAID_SAS_discover in H. bind_inv H.
    exact (mapM_construct_cls _ _ _ _ H).
  - unfold SSA_discover in H. do 2 bind_inv H.
    exact (mapM_construct_cls _ _ _ _ H).
  - unfold MD_RAID_discover in H. bind_inv H.
    exact (mapM_construct_cls _ _ _ _ H).
Qed.

(** Every discovered instance is one its class's constructor accepts. *)
Lemma discover_init (h : host) (c : backend) (xs : list raid) :
  discover re_match h c = Ok xs ->
  forall x, In x xs -> init c (name x) = Ok x.
Proof.
  assert (G : forall (A : Type) (f : A -> list string) (args : list A),
             mapM (fun a => construct c (f a)) args = Ok xs ->
             forall x, In x xs -> init c (name x) = Ok x).
  { intros A f args H x Hx.
    destruct (mapM_In _ _ _ H x Hx) as (a & _ & Ha).
    destruct (construct_Ok _ _ _ Ha) as (nm & Hnm & ->).
    rewrite Hnm in Ha. exact Ha. }
  destruct c; simpl; intros H.
  - unfold MegaRAID_SAS_discover in H. bind_inv H. exact (G _ _ _ H).
  - unfold SSA_discover in H. do 2 bind_inv H. exact (G _ _ _ H).
  - unfold MD_RAID_discover in H. bind_inv H. exact (G _ _ _ H).
Qed.

Lemma mapM_filter_In {A B : Type} (f : A -> result (list B)) (p : A -> bool)
    (xs : list A) (yss : list (list B)) :
  mapM f (filter p xs) = Ok yss ->
  forall y, In y (concat yss) ->
  exists x ys, In x xs /\ p x = true /\ f x = Ok ys /\ In y ys.
Proof.
  intros H y Hy.
  apply in_concat in Hy. destruct Hy as (ys & Hys & Hy).
  destruct (mapM_In _ _ _ H ys Hys) as (x & Hx & Hfx).
  apply filter_In in Hx. destruct Hx as [Hx Hp].
  exists x, ys; auto.
Qed.

(** C3.  [RAID.discover()] returns the concatenation of [rcls.discover()]
    over the registered classes whose [is_supported()] holds, taken in
    registration order ([megaraid_sas], [ssa], [md_raid]) and keeping each
    class's own order; an exception of one of those calls is the outcome of
    the whole.  Hence no instance in the result belongs to a class whose
    [is_supported()] is false. *)
Theorem RAID_discover_aggregates (h : host) :
  RAID_discover re_match h = discoverAll re_match h
  /\ map snd registry = [MegaRAID_SAS; SSA; MD_RAID]
  /\ (forall xs, RAID_discover re_match h = Ok xs ->
        exists found,
          mapM (discover re_match h)
               (filter (is_supported h) [MegaRAID_SAS; SSA; MD_RAID]) = Ok found
          /\ xs = concat found
          /\ forall x, In x xs -> is_supported h (cls x) = true).
Proof.
  assert (E : RAID_discover re_match h = discoverAll re_match h).
  { unfold RAID_discover. rewrite discover_loop_concat. reflexivity. }
  split; [exact E |]. split; [reflexivity |].
  intros xs Hxs. rewrite E in Hxs. unfold discoverAll in Hxs.
  apply bind_Ok_inv in Hxs. destruct Hxs as (found & Hfound & Hxs).
  inversion Hxs; subst xs; clear Hxs.
  exists found. split; [exact Hfound |]. split; [reflexivity |].
  intros x Hx.
  destruct (mapM_filter_In _ _ _ _ Hfound x Hx) as (c & ys & _ & Hc & Hys & Hin).
  rewrite (discover_cls h c ys Hys x Hin). exact Hc.
Qed.

End Aggregation.

(** ** The parser on well-formed and ill-formed text *)

Lemma matching_values_cons (field i : string) (rest : list string) :
  matching_values field (i :: rest) =
  if String.eqb (line_key i) field then
    match line_value i with
    | Some v => vs <- matching_values field rest ;; Ok (v :: vs)
    | None => Raise (IndexError ValuePart)
    end
  else matching_values field rest.
Proof.
  unfold line_key, line_value. simpl. unfold split1.
  destruct (cut ":" i) as [[a b] |]; simpl;
    destruct (String.eqb _ field); reflexivity.
Qed.

Lemma line_value_None (i : string) :
  line_value i = None <-> contains ":" i = false.
Proof.
  unfold line_value. rewrite <- cut_None_iff.
  destruct (cut ":" i) as [[a b] |]; split; congruence.
Qed.

Lemma matching_values_no_match (field : string) (lines : list string) :
  first_match field lines = None -> matching_values field lines = Ok [].
Proof.
  unfold first_match.
  induction lines as [| i rest IH]; [reflexivity |].
  rewrite matching_values_cons. simpl.
  destruct (String.eqb (line_key i) field); [discriminate | exact IH].
Qed.

Lemma matching_values_colonless (field i : string) (lines : list string) :
  first_match field lines = Some i -> line_value i = None ->
  matching_values field lines = Raise (IndexError ValuePart).
Proof.
  unfold first_match.
  induction lines as [| j rest IH]; [discriminate |].
  rewrite matching_values_cons. simpl.
  destruct (String.eqb (line_key j) field).
  - intros H Hv. inversion H; subst j. rewrite Hv. reflexivity.
  - exact IH.
Qed.

(** When every line whose key is [field] has a colon, the comprehension
    succeeds and its head is the value of the first such line. *)
Lemma matching_values_well_formed (field : string) (lines : list string) :
  (forall i, In i lines -> line_key i = field -> line_value i <> None) ->
  exists vs, matching_values field lines = Ok vs
             /\ hd_error vs = match first_match field lines with
                              | Some i => line_value i
                              | None => None
                              end.
Proof.
  unfold first_match.
  induction lines as [| i rest IH]; intros Hwf.
  - exists []; auto.
  - rewrite matching_values_cons. simpl.
    destruct IH as (vs & Hvs & Hhd);
      [intros j Hj; apply Hwf; right; exact Hj |].
    destruct (String.eqb_spec (line_key i) field) as [Hk | Hk].
    + destruct (line_value i) as [v |] eqn:Hv.
      * rewrite Hvs. exists (v :: vs); auto.
      * exfalso. exact (Hwf i (or_introl eq_refl) Hk Hv).
    + exists vs; auto.
Qed.

(** The contract of the parser on well-formed text. *)
Lemma parse_by_colon_well_formed (text field : string) :
  (forall i, In i (split LF text) -> line_key i = field -> line_value i <> None) ->
  parse_by_colon text field =
  match first_match field (split LF text) with
  | Some i => match line_value i with
              | Some v => Ok v
              | None => Raise (IndexError FirstMatch)
              end
  | None => Raise (IndexError FirstMatch)
  end.
Proof.
  intros Hwf. unfold parse_by_colon.
  destruct (matching_values_well_formed field _ Hwf) as (vs & -> & Hhd).
  simpl. unfold subscript.
  destruct vs as [| v vs]; simpl in *.
  - destruct (first_match field (split LF text)) as [i |]; [| reflexivity].
    rewrite <- Hhd; reflexivity.
  - destruct (first_match field (split LF text)) as [i |]; [| discriminate].
    rewrite <- Hhd; reflexivity.
Qed.

(** No line with the key: the subscript [[0]] of the empty comprehension. *)
Lemma parse_by_colon_not_found (text field : string) :
  first_match field (split LF text) = None ->
  parse_by_colon text field = Raise (IndexError FirstMatch).
Proof.
  intros H. unfold parse_by_colon.
  rewrite (matching_values_no_match _ _ H). reflexivity.
Qed.

(** C2.  On the text ["State : clean\nState"] and the field ["State"] the
    first line with that key is ["State : clean"], whose trimmed value is
    ["clean"], yet [parse_by_colon] raises: the comprehension also
    evaluates the value of the second line, which has the key and no
    colon.  (Without such a line the parser does return the value of the
    first match, see [parse_by_colon_well_formed], and with no matching
    line it raises the lookup error, see [parse_by_colon_not_found].) *)
Theorem parse_by_colon_later_colonless_line :
  let text := "State : clean" ++ String LF "State" in
  first_match "State" (split LF text) = Some "State : clean"
  /\ line_value "State : clean" = Some "clean"
  /\ parse_by_colon text "State" = Raise (IndexError ValuePart).
Proof. repeat split. Qed.

(** C9.  [parse_by_colon] has a third outcome beside a value and the
    lookup error of the empty comprehension: when the first line whose key
    is the field has no colon (so the whole trimmed line is the field
    name), the subscript [[1]] of its one-element split raises. *)
Theorem parse_by_colon_colonless_first_match :
  (exists text field,
      (forall v, parse_by_colon text field <> Ok v)
      /\ parse_by_colon text field <> Raise (IndexError FirstMatch)
      /\ parse_by_colon text field = Raise (IndexError ValuePart))
  /\ (forall text field i,
        first_match field (split LF text) = Some i ->
        contains ":" i = false ->
        strip i = field
        /\ parse_by_colon text field = Raise (IndexError ValuePart)).
Proof.
  split.
  - exists ("Name : MyArray" ++ String LF "State"), "State".
    repeat split; try discriminate.
  - intros text field i Hi Hc. split.
    + unfold first_match in Hi. apply find_some in Hi. destruct Hi as [_ Hk].
      apply String.eqb_eq in Hk. unfold line_key in Hk.
      rewrite (proj2 (cut_None_iff ":" i) Hc) in Hk. exact Hk.
    + unfold parse_by_colon.
      rewrite (matching_values_colonless field i _ Hi
                 (proj2 (line_value_None i) Hc)).
      reflexivity.
Qed.

Lemma parse_by_colon_colonless_first_match_witness :
  strip " State " = "State"
  /\ parse_by_colon ("Name : MyArray" ++ String LF " State ") "State"
     = Raise (IndexError ValuePart).
Proof.
  apply (proj2 parse_by_colon_colonless_first_match
           ("Name : MyArray" ++ String LF " State ") "State" " State ");
    reflexivity.
Defined.

(** ** Status translation *)

Lemma MD_RAID_xlate (raw : string) :
  dict_get_default MD_RAID_XLATE_STATUS raw raw =
  if String.eqb "clean" raw || String.eqb "active" raw then "Optimal" else raw.
Proof.
  unfold dict_get_default, MD_RAID_XLATE_STATUS. cbn [dict_set dict_get].
  change (String.eqb "clean" "active") with false. cbn [dict_get].
  destruct (String.eqb "clean" raw); [reflexivity |].
  destruct (String.eqb "active" raw); reflexivity.
Qed.

Lemma SSA_xlate (raw : string) :
  dict_get_default SSA_XLATE_STATUS raw raw =
  if String.eqb "OK" raw then "Optimal" else raw.
Proof.
  unfold dict_get_default, SSA_XLATE_STATUS. cbn [dict_get].
  destruct (String.eqb "OK" raw); reflexivity.
Qed.

(** C5.  For an [MD_RAID] instance whose [mdadm --detail] text yields the
    raw ["State"] value [raw], the property [status] is ["Optimal"] when
    [raw] is ["clean"] or ["active"], and [raw] itself, unchanged, for
    every other value. *)
Theorem MD_RAID_status_translation (h : host) (x : raid) (out raw : string) :
  cls x = MD_RAID ->
  MD_RAID_detail h x = Ok out ->
  parse_by_colon out "State" = Ok raw ->
  (raw = "clean" \/ raw = "active" -> status h x = Ok "Optimal")
  /\ (raw <> "clean" -> raw <> "active" -> status h x = Ok raw).
Proof.
  intros Hc Hout Hraw.
  assert (E : status h x = Ok (dict_get_default MD_RAID_XLATE_STATUS raw raw)).
  { unfold status. rewrite Hc. unfold MD_RAID_status.
    rewrite Hout. simpl. rewrite Hraw. reflexivity. }
  rewrite E, MD_RAID_xlate. split.
  - intros [-> | ->]; reflexivity.
  - intros H1 H2.
    destruct (String.eqb_spec "clean" raw); [congruence |].
    destruct (String.eqb_spec "active" raw); [congruence | reflexivity].
Qed.

(** C8.  For an [SSA] instance named [slot:array] whose [show detail] text
    yields the raw ["Status"] value [raw], the property [status] is
    ["Optimal"] when [raw] is ["OK"] and [raw] itself, unchanged, for every
    other value. *)
Theorem SSA_status_translation (h : host) (x : raid)
    (slot array out raw : string) :
  cls x = SSA ->
  split ":" (name x) = [slot; array] ->
  check_output h [ssacli; "ctrl"; "slot=" ++ slot; "array"; array; "show"; "detail"]
    = Ok out ->
  parse_by_colon out "Status" = Ok raw ->
  (raw = "OK" -> status h x = Ok "Optimal")
  /\ (raw <> "OK" -> status h x = Ok raw).
Proof.
  intros Hc Hname Hout Hraw.
  assert (E : status h x = Ok (dict_get_default SSA_XLATE_STATUS raw raw)).
  { unfold status. rewrite Hc. unfold SSA_status.
    rewrite Hname. cbn [unpack2 bind fst snd].
    rewrite Hout. cbn [bind]. rewrite Hraw. reflexivity. }
  rewrite E, SSA_xlate. split.
  - intros ->; reflexivity.
  - intros H1. destruct (String.eqb_spec "OK" raw); [congruence | reflexivity].
Qed.

(** ** Stable names *)

Lemma subscript_split1_0 (o : origin) (sep : ascii) (s : string) :
  subscript o (split1 sep s) 0
  = Ok (match cut sep s with Some (a, _) => a | None => s end).
Proof.
  unfold split1. destruct (cut sep s) as [[a b] |]; reflexivity.
Qed.

Lemma append_empty (s : string) : s ++ "" = s.
Proof.
  induction s as [| c s' IH]; simpl; [| rewrite IH]; reflexivity.
Qed.

Lemma take_word_app (r rest : string) (c : ascii) :
  has_space r = false -> is_space c = true ->
  take_word (r ++ String c rest) = r.
Proof.
  intros Hr Hc. induction r as [| d r' IH]; simpl in *.
  - rewrite Hc; reflexivity.
  - apply orb_false_elim in Hr. destruct Hr as [Hd Hr'].
    rewrite Hd, (IH Hr'); reflexivity.
Qed.

Lemma take_word_all (r : string) : has_space r = false -> take_word r = r.
Proof.
  induction r as [| d r' IH]; simpl; intros Hr; [reflexivity |].
  apply orb_false_elim in Hr. destruct Hr as [Hd Hr'].
  rewrite Hd, (IH Hr'); reflexivity.
Qed.

Lemma first_token_prefix (r tail : string) :
  r <> "" -> has_space r = false ->
  (forall d s', tail = String d s' -> is_space d = true) ->
  first_token (r ++ tail) = Some r.
Proof.
  intros Hne Hr Htail. unfold first_token.
  destruct r as [| d r']; [contradiction |].
  simpl in Hr. apply orb_false_elim in Hr. destruct Hr as [Hd Hr'].
  cbn [append lstrip]. rewrite Hd. cbn [take_word]. rewrite Hd.
  do 2 f_equal.
  destruct tail as [| e s'].
  - rewrite append_empty. apply take_word_all; exact Hr'.
  - apply take_word_app; [exact Hr' | exact (Htail e s' eq_refl)].
Qed.

(** C7, as the code has it.  For an [MD_RAID] instance whose
    [mdadm --detail] text yields the ["Name"] value [v], [stable_name] is
    the part [r] of [v] before its first space character (all of [v] when
    it has none).  When [r] is not empty and holds no other whitespace
    character, [r] is the first whitespace-delimited token of [v]. *)
Theorem MD_RAID_stable_name_first_space (h : host) (x : raid) (out v : string) :
  cls x = MD_RAID ->
  MD_RAID_detail h x = Ok out ->
  parse_by_colon out "Name" = Ok v ->
  exists r,
    stable_name h x = Ok r
    /\ contains " " r = false
    /\ (v = r \/ exists rest, v = r ++ " " ++ rest)
    /\ (r <> "" -> has_space r = false -> first_token v = Some r).
Proof.
  intros Hc Hout Hv.
  assert (E : stable_name h x
              = Ok (match cut " " v with Some (a, _) => a | None => v end)).
  { unfold stable_name. rewrite Hc. unfold MD_RAID_stable_name.
    rewrite Hout. cbn [bind]. rewrite Hv. cbn [bind].
    apply subscript_split1_0. }
  destruct (cut " " v) as [[a b] |] eqn:Hcut.
  - destruct (cut_Some _ _ _ _ Hcut) as [Hva Ha].
    exists a. split; [exact E |]. split; [exact Ha |]. split.
    + right. exists b. exact Hva.
    + intros Hne Hsp. rewrite Hva.
      apply first_token_prefix; auto.
      intros d s' Heq. inversion Heq; reflexivity.
  - exists v. split; [exact E |]. split; [apply cut_None_iff; exact Hcut |].
    split; [left; reflexivity |].
    intros Hne Hsp.
    rewrite <- (append_empty v) at 1.
    apply first_token_prefix; auto. discriminate.
Qed.

Lemma MD_RAID_stable_name_first_space_witness :
  exists r,
    stable_name (md_host md_detail_clean) (mk_raid MD_RAID "0") = Ok r
    /\ contains " " r = false
    /\ ("homehost:arrayname extra" = r
        \/ exists rest, "homehost:arrayname extra" = r ++ " " ++ rest)
    /\ (r <> "" -> has_space r = false ->
        first_token "homehost:arrayname extra" = Some r).
Proof.
  exact (MD_RAID_stable_name_first_space (md_host md_detail_clean)
           (mk_raid MD_RAID "0") md_detail_clean "homehost:arrayname extra"
           eq_refl eq_refl eq_refl).
Defined.

(** The example of the design document: the value
    ["homehost:arrayname extra"] gives ["homehost:arrayname"]. *)
Example MD_RAID_stable_name_example :
  stable_name (md_host md_detail_clean) (mk_raid MD_RAID "0")
  = Ok "homehost:arrayname".
Proof. reflexivity. Qed.

(** C7, as stated, fails when a whitespace character other than the space
    comes first: for the ["Name"] value ["homehost:arrayname<TAB>extra more"]
    the first whitespace-delimited token is ["homehost:arrayname"], while
    [stable_name] is ["homehost:arrayname<TAB>extra"]. *)
Lemma MD_RAID_stable_name_tab_counterexample :
  cls (mk_raid MD_RAID "0") = MD_RAID
  /\ MD_RAID_detail (md_host md_detail_tab) (mk_raid MD_RAID "0") = Ok md_detail_tab
  /\ parse_by_colon md_detail_tab "Name"
     = Ok ("homehost:arrayname" ++ String TAB "extra more")
  /\ first_token ("homehost:arrayname" ++ String TAB "extra more")
     = Some "homehost:arrayname"
  /\ stable_name (md_host md_detail_tab) (mk_raid MD_RAID "0")
     = Ok ("homehost:arrayname" ++ String TAB "extra")
  /\ stable_name (md_host md_detail_tab) (mk_raid MD_RAID "0")
     <> Ok "homehost:arrayname".
Proof. repeat split. discriminate. Qed.

(** ** Runs on the sample hosts *)

Lemma RAID_discover_aggregates_witness :
  RAID_discover md_host_re_match (md_host md_detail_clean)
  = Ok [mk_raid MD_RAID "0"]
  /\ is_supported (md_host md_detail_clean) MD_RAID = true
  /\ is_supported (md_host md_detail_clean) MegaRAID_SAS = false.
Proof.
  destruct (proj2 (proj2 (RAID_discover_aggregates md_host_re_match
                            (md_host md_detail_clean)))
              [mk_raid MD_RAID "0"] eq_refl) as (found & _ & _ & Hsup).
  split; [reflexivity |]. split; [| reflexivity].
  exact (Hsup (mk_raid MD_RAID "0") (or_introl eq_refl)).
Defined.

Lemma MD_RAID_status_translation_witness :
  status (md_host md_detail_clean) (mk_raid MD_RAID "0") = Ok "Optimal"
  /\ status (md_host md_detail_degraded) (mk_raid MD_RAID "0") = Ok "degraded".
Proof.
  split.
  - apply (proj1 (MD_RAID_status_translation (md_host md_detail_clean)
                    (mk_raid MD_RAID "0") md_detail_clean "clean"
                    eq_refl eq_refl eq_refl)).
    left; reflexivity.
  - apply (proj2 (MD_RAID_status_translation (md_host md_detail_degraded)
                    (mk_raid MD_RAID "0") md_detail_degraded "degraded"
                    eq_refl eq_refl eq_refl)); discriminate.
Defined.

Lemma SSA_status_translation_witness :
  status (ssa_host (ssa_detail "OK")) (mk_raid SSA "0:A") = Ok "Optimal"
  /\ status (ssa_host (ssa_detail "Failed Physical Drive")) (mk_raid SSA "0:A")
     = Ok "Failed Physical Drive".
Proof.
  split.
  - apply (proj1 (SSA_status_translation (ssa_host (ssa_detail "OK"))
                    (mk_raid SSA "0:A") "0" "A" (ssa_detail "OK") "OK"
                    eq_refl eq_refl eq_refl eq_refl)).
    reflexivity.
  - apply (proj2 (SSA_status_translation
                    (ssa_host (ssa_detail "Failed Physical Drive"))
                    (mk_raid SSA "0:A") "0" "A"
                    (ssa_detail "Failed Physical Drive") "Failed Physical Drive"
                    eq_refl eq_refl eq_refl eq_refl)).
    discriminate.
Defined.


(** * Further properties of the script *)

(** ** Splitting and joining *)

Lemma split_pieces_no_sep (sep : ascii) (s : string) :
  Forall (fun w => contains sep w = false) (split sep s).
Proof.
  induction s as [| c s' IH]; simpl.
  - constructor; [reflexivity | constructor].
  - destruct (Ascii.eqb c sep) eqn:Hc.
    + constructor; [reflexivity | exact IH].
    + destruct (split sep s') as [| w ws].
      * constructor; [simpl; rewrite Hc; reflexivity | constructor].
      * inversion IH; subst. constructor; [simpl; rewrite Hc; auto | auto].
Qed.

(** [sep.join(s.split(sep)) == s]. *)
Lemma join_split (sep : ascii) (s : string) :
  String.concat (String sep "") (split sep s) = s.
Proof.
  induction s as [| c s' IH]; simpl; [reflexivity |].
  pose proof (split_not_nil sep s') as Hn.
  destruct (Ascii.eqb c sep) eqn:Hc.
  - apply Ascii.eqb_eq in Hc; subst c.
    destruct (split sep s') as [| w ws]; [contradiction |].
    change (String.concat (String sep "") ("" :: w :: ws))
      with (String sep (String.concat (String sep "") (w :: ws))).
    rewrite IH. reflexivity.
  - destruct (split sep s') as [| w ws]; [contradiction |].
    destruct ws as [| w' ws'].
    + simpl in *. rewrite IH. reflexivity.
    + change (String.concat (String sep "") (String c w :: w' :: ws'))
        with (String c (String.concat (String sep "") (w :: w' :: ws'))).
      rewrite IH. reflexivity.
Qed.

Lemma split_two (sep : ascii) (s a b : string) :
  split sep s = [a; b] ->
  s = a ++ String sep b /\ contains sep a = false /\ contains sep b = false.
Proof.
  intros H.
  pose proof (join_split sep s) as J.
  pose proof (split_pieces_no_sep sep s) as F.
  rewrite H in J, F. cbn [String.concat] in J.
  inversion F as [| ? ? Ha F']; subst. inversion F' as [| ? ? Hb _]; subst.
  auto.
Qed.

Lemma slug_injective (c d : backend) : slug c = slug d -> c = d.
Proof. destruct c, d; simpl; intros H; try reflexivity; discriminate. Qed.

(** X1.  A handle names one instance: two instances with the same
    [str()] have the same class and the same name, whatever the names
    contain. *)
Theorem RAID_str_injective (x y : raid) :
  RAID_str x = RAID_str y -> x = y.
Proof.
  destruct x as [c n], y as [d m]. unfold RAID_str; simpl. intros H.
  assert (S : split "," (slug c ++ String "," n)
              = split "," (slug d ++ String "," m)) by (f_equal; exact H).
  rewrite !split_app in S by apply slug_no_comma.
  inversion S as [[Hs Hn]].
  apply slug_injective in Hs. subst d. f_equal.
  rewrite <- (join_split "," n), <- (join_split "," m), Hn. reflexivity.
Qed.

Lemma RAID_str_injective_witness :
  mk_raid SSA "0:A" = mk_raid SSA ("0:" ++ "A").
Proof.
  apply (RAID_str_injective (mk_raid SSA "0:A") (mk_raid SSA ("0:" ++ "A"))).
  reflexivity.
Defined.

(** X2.  Resolution inverts printing: when [RAID.create(s)] returns an
    instance [x], then [str(x)] is [s] itself, the name of [x] holds no
    comma and the constructor of its class accepts it. *)
Theorem create_Ok_is_handle (s : string) (x : raid) :
  RAID_create s = Ok x ->
  RAID_str x = s
  /\ contains "," (name x) = false
  /\ init (cls x) (name x) = Ok x.
Proof.
  rewrite create_unfold. intros H.
  destruct (dict_get registry (hd "" (split "," s))) as [c |] eqn:Hget;
    [| discriminate].
  apply registry_get_slug in Hget.
  pose proof H as Hc. apply construct_Ok in Hc. destruct Hc as (nm & Htl & ->).
  assert (Hs : split "," s = [slug c; nm]).
  { pose proof (split_not_nil "," s) as Hn.
    destruct (split "," s) as [| sl data]; [contradiction |].
    simpl in Hget, Htl. subst. reflexivity. }
  rewrite Htl in H. simpl in H.
  destruct (split_two _ _ _ _ Hs) as (E & _ & Hnm).
  repeat split; [symmetry; exact E | exact Hnm | exact H].
Qed.

Lemma create_Ok_is_handle_witness :
  RAID_str (mk_raid MegaRAID_SAS "0:1") = "megaraid_sas,0:1"
  /\ contains "," "0:1" = false
  /\ init MegaRAID_SAS "0:1" = Ok (mk_raid MegaRAID_SAS "0:1").
Proof.
  exact (create_Ok_is_handle "megaraid_sas,0:1" (mk_raid MegaRAID_SAS "0:1")
           eq_refl).
Defined.

(** ** Registration *)

Lemma dict_get_set_same {V : Type} (d : dict V) (k : string) (v : V) :
  dict_get (dict_set d k v) k = Some v.
Proof.
  induction d as [| [k' v'] rest IH]; simpl.
  - rewrite String.eqb_refl; reflexivity.
  - destruct (String.eqb k' k) eqn:E; simpl; rewrite E; auto.
Qed.

Lemma dict_get_set_other {V : Type} (d : dict V) (k k' : string) (v : V) :
  k <> k' -> dict_get (dict_set d k v) k' = dict_get d k'.
Proof.
  intros Hne. induction d as [| [k0 v0] rest IH]; simpl.
  - destruct (String.eqb_spec k k'); [contradiction | reflexivity].
  - destruct (String.eqb_spec k0 k) as [-> | Hk]; simpl.
    + destruct (String.eqb_spec k k'); [contradiction | reflexivity].
    + destruct (String.eqb k0 k'); auto.
Qed.

Lemma dict_set_present {V : Type} (d : dict V) (k : string) (v : V) :
  dict_get d k = Some v -> dict_set d k v = d.
Proof.
  induction d as [| [k0 v0] rest IH]; simpl; [discriminate |].
  destruct (String.eqb k0 k); intros H.
  - inversion H; reflexivity.
  - rewrite (IH H); reflexivity.
Qed.

Lemma dict_set_absent {V : Type} (d : dict V) (k : string) (v : V) :
  dict_get d k = None -> dict_set d k v = (d ++ [(k, v)])%list.
Proof.
  induction d as [| [k0 v0] rest IH]; simpl; [reflexivity |].
  destruct (String.eqb k0 k); intros H; [discriminate |].
  rewrite (IH H); reflexivity.
Qed.

Lemma backend_eq_dec (c d : backend) : {c = d} + {c <> d}.
Proof. decide equality. Qed.

Lemma fold_register_get (regs : list backend) (reg : dict backend)
    (k : string) (c : backend) :
  dict_get (fold_left (fun r d => register d r) regs reg) k = Some c
  <-> (In c regs /\ k = slug c)
      \/ (dict_get reg k = Some c /\ forall d, In d regs -> slug d <> k).
Proof.
  revert reg; induction regs as [| c0 rest IH]; intros reg; simpl.
  - split; [intros H; right; split; [exact H | tauto] | intros [[[] _] | [H _]]; exact H].
  - rewrite IH. unfold register.
    destruct (String.eqb_spec (slug c0) k) as [Hk | Hk].
    + subst k. rewrite dict_get_set_same. split.
      * intros [[Hin Hs] | [Hc Hn]]; [left; auto |].
        inversion Hc; subst. left; auto.
      * intros [[[-> | Hin] Hs] | [_ Hn]].
        -- destruct (in_dec backend_eq_dec c rest) as [Hin | Hnin];
             [left; auto |].
           right. split; [reflexivity |].
           intros d Hd Hsd. apply slug_injective in Hsd. subst d. contradiction.
        -- left; auto.
        -- exfalso. exact (Hn c0 (or_introl eq_refl) eq_refl).
    + rewrite (dict_get_set_other _ _ _ _ Hk). split.
      * intros [[Hin Hs] | [Hc Hn]]; [left; auto |].
        right. split; [exact Hc |]. intros d [<- | Hd]; auto.
      * intros [[[-> | Hin] Hs] | [Hc Hn]].
        -- symmetry in Hs. contradiction.
        -- left; auto.
        -- right. split; [exact Hc |]. intros d Hd. apply Hn. right; exact Hd.
Qed.

(** X3.  Whatever classes are registered and in whatever order, with
    repetitions or not, a key of the registry leads to a class exactly when
    that class was registered and the key is its slug; the registry of the
    script is the one of the three calls in file order. *)
Theorem registry_of_lookup (regs : list backend) (k : string) (c : backend) :
  (dict_get (registry_of regs) k = Some c <-> In c regs /\ k = slug c)
  /\ registry = registry_of [MegaRAID_SAS; SSA; MD_RAID].
Proof.
  split; [| reflexivity].
  unfold registry_of. rewrite fold_register_get. simpl. split.
  - intros [H | [H _]]; [exact H | discriminate].
  - intros H; left; exact H.
Qed.

Lemma registry_of_snoc (regs : list backend) (c : backend) :
  registry_of (regs ++ [c]) = register c (registry_of regs).
Proof. unfold registry_of. rewrite fold_left_app. reflexivity. Qed.

(** X4.  Registering a class a second time changes nothing, neither the
    entries nor their order; registering a new class appends its entry
    after the others. *)
Theorem register_again_or_append (regs : list backend) (c : backend) :
  (In c regs -> register c (registry_of regs) = registry_of regs)
  /\ (~ In c regs ->
      register c (registry_of regs) = (registry_of regs ++ [(slug c, c)])%list).
Proof.
  unfold register. split; intros H.
  - apply dict_set_present. unfold registry_of.
    apply fold_register_get. left; auto.
  - apply dict_set_absent.
    destruct (dict_get (registry_of regs) (slug c)) as [d |] eqn:E;
      [| reflexivity].
    unfold registry_of in E. apply fold_register_get in E.
    destruct E as [[Hd Hs] | [Hd _]]; [| discriminate].
    apply slug_injective in Hs. subst d. contradiction.
Qed.

Lemma register_again_or_append_witness :
  register SSA registry = registry
  /\ register MD_RAID (registry_of [MegaRAID_SAS; SSA])
     = [("megaraid_sas", MegaRAID_SAS); ("ssa", SSA); ("md_raid", MD_RAID)].
Proof.
  split.
  - apply (proj1 (register_again_or_append [MegaRAID_SAS; SSA; MD_RAID] SSA)).
    simpl; auto.
  - apply (proj2 (register_again_or_append [MegaRAID_SAS; SSA] MD_RAID)).
    simpl. intros [H | [H | []]]; discriminate.
Defined.

(** ** Trimming *)

Lemma contains_app (c : ascii) (a b : string) :
  contains c (a ++ b) = contains c a || contains c b.
Proof.
  induction a as [| d a' IH]; simpl; [reflexivity |].
  rewrite IH, orb_assoc; reflexivity.
Qed.

Lemma lstrip_head (s t : string) (c : ascii) :
  lstrip s = String c t -> is_space c = false.
Proof.
  induction s as [| d s' IH]; simpl; [discriminate |].
  destruct (is_space d) eqn:Hd; [exact IH |].
  intros H; inversion H; subst; exact Hd.
Qed.

Lemma rstrip_head (c : ascii) (t : string) :
  is_space c = false -> exists r, rstrip (String c t) = String c r.
Proof.
  intros Hc. simpl. destruct (rstrip t) as [| d r].
  - rewrite Hc. exists EmptyString; reflexivity.
  - exists (String d r); reflexivity.
Qed.

Lemma rstrip_idempotent (s : string) : rstrip (rstrip s) = rstrip s.
Proof.
  induction s as [| c s' IH]; simpl; [reflexivity |].
  destruct (rstrip s') as [| d r] eqn:E.
  - destruct (is_space c) eqn:Hc; simpl; [reflexivity | rewrite Hc; reflexivity].
  - change (rstrip (String c (String d r)))
      with (match rstrip (String d r) with
            | EmptyString => if is_space c then EmptyString else String c EmptyString
            | r' => String c r'
            end).
    rewrite IH. reflexivity.
Qed.

Lemma strip_idempotent (s : string) : strip (strip s) = strip s.
Proof.
  unfold strip.
  destruct (lstrip s) as [| c t] eqn:E; [reflexivity |].
  pose proof (lstrip_head _ _ _ E) as Hc.
  destruct (rstrip_head c t Hc) as [r Hr].
  rewrite Hr. cbn [lstrip]. rewrite Hc, <- Hr.
  apply rstrip_idempotent.
Qed.

Lemma contains_lstrip (c : ascii) (s : string) :
  contains c s = false -> contains c (lstrip s) = false.
Proof.
  induction s as [| d s' IH]; simpl; [reflexivity |].
  intros H. apply orb_false_elim in H. destruct H as [Hd Hs].
  destruct (is_space d); [exact (IH Hs) |].
  simpl. rewrite Hd, Hs. reflexivity.
Qed.

Lemma contains_rstrip (c : ascii) (s : string) :
  contains c s = false -> contains c (rstrip s) = false.
Proof.
  induction s as [| d s' IH]; simpl; [reflexivity |].
  intros H. apply orb_false_elim in H. destruct H as [Hd Hs].
  specialize (IH Hs).
  destruct (rstrip s') as [| e r].
  - destruct (is_space d); simpl; [reflexivity | rewrite Hd; reflexivity].
  - change (contains c (String d (String e r)))
      with (Ascii.eqb d c || contains c (String e r)).
    rewrite Hd, IH. reflexivity.
Qed.

Lemma contains_strip (c : ascii) (s : string) :
  contains c s = false -> contains c (strip s) = false.
Proof.
  intros H. unfold strip. apply contains_rstrip, contains_lstrip, H.
Qed.

Lemma cut_pieces_without (sep c : ascii) (s a b : string) :
  cut sep s = Some (a, b) -> contains c s = false ->
  contains c a = false /\ contains c b = false.
Proof.
  intros Hcut Hs. destruct (cut_Some _ _ _ _ Hcut) as [-> _].
  rewrite contains_app in Hs. apply orb_false_elim in Hs.
  destruct Hs as [Ha Hb]. simpl in Hb. apply orb_false_elim in Hb.
  tauto.
Qed.

(** ** Keys and values of lines *)

Lemma line_key_no_colon (i : string) : contains ":" (line_key i) = false.
Proof.
  unfold line_key. apply contains_strip.
  destruct (cut ":" i) as [[a b] |] eqn:E.
  - exact (proj2 (cut_Some _ _ _ _ E)).
  - apply cut_None_iff; exact E.
Qed.

Lemma line_key_stripped (i : string) : strip (line_key i) = line_key i.
Proof. unfold line_key. apply strip_idempotent. Qed.

Lemma line_key_without (c : ascii) (i : string) :
  contains c i = false -> contains c (line_key i) = false.
Proof.
  intros H. unfold line_key. apply contains_strip.
  destruct (cut ":" i) as [[a b] |] eqn:E; [| exact H].
  exact (proj1 (cut_pieces_without _ _ _ _ _ E H)).
Qed.

Lemma line_value_shape (c : ascii) (i v : string) :
  line_value i = Some v ->
  strip v = v /\ (contains c i = false -> contains c v = false).
Proof.
  unfold line_value. destruct (cut ":" i) as [[a b] |] eqn:E; [| discriminate].
  intros H; inversion H; subst v. split; [apply strip_idempotent |].
  intros Hi. apply contains_strip.
  exact (proj2 (cut_pieces_without _ _ _ _ _ E Hi)).
Qed.

(** ** The three outcomes of the parser *)

Lemma matching_values_colonless_any (field : string) (lines : list string) :
  existsb (colonless_match field) lines = true ->
  matching_values field lines = Raise (IndexError ValuePart).
Proof.
  induction lines as [| j rest IH]; [discriminate |].
  rewrite matching_values_cons. simpl. unfold colonless_match at 1.
  destruct (String.eqb (line_key j) field); simpl.
  - destruct (line_value j) as [v |] eqn:Hv.
    + destruct (contains ":" j) eqn:Hc; simpl.
      * intros H. rewrite (IH H). reflexivity.
      * apply line_value_None in Hc. congruence.
    + reflexivity.
  - exact IH.
Qed.

Lemma no_colonless_well_formed (field : string) (lines : list string) :
  existsb (colonless_match field) lines = false ->
  forall i, In i lines -> line_key i = field -> line_value i <> None.
Proof.
  intros H i Hi Hk Hv.
  assert (E : existsb (colonless_match field) lines = true).
  { apply existsb_exists. exists i. split; [exact Hi |].
    unfold colonless_match. apply line_value_None in Hv.
    rewrite Hk, String.eqb_refl, Hv. reflexivity. }
  congruence.
Qed.

Lemma first_match_None (field : string) (lines : list string) :
  first_match field lines = None <->
  forall i, In i lines -> line_key i <> field.
Proof.
  unfold first_match. split.
  - intros H i Hi Hk. pose proof (find_none _ _ H i Hi) as E. simpl in E.
    rewrite Hk, String.eqb_refl in E. discriminate.
  - intros H. destruct (find _ lines) as [i |] eqn:E; [| reflexivity].
    apply find_some in E. destruct E as [Hi Hk].
    apply String.eqb_eq in Hk. exfalso. exact (H i Hi Hk).
Qed.

(** The parser as a decision on the lines of the text. *)
Lemma parse_by_colon_cases (text field : string) :
  parse_by_colon text field =
  if existsb (colonless_match field) (split LF text)
  then Raise (IndexError ValuePart)
  else match first_match field (split LF text) with
       | Some i => match line_value i with
                   | Some v => Ok v
                   | None => Raise (IndexError ValuePart)
                   end
       | None => Raise (IndexError FirstMatch)
       end.
Proof.
  destruct (existsb (colonless_match field) (split LF text)) eqn:E.
  - unfold parse_by_colon.
    rewrite (matching_values_colonless_any _ _ E). reflexivity.
  - pose proof (no_colonless_well_formed _ _ E) as Hwf.
    rewrite (parse_by_colon_well_formed _ _ Hwf).
    destruct (first_match field (split LF text)) as [i |] eqn:Hi; [| reflexivity].
    destruct (line_value i) as [v |] eqn:Hv; [reflexivity |].
    exfalso. unfold first_match in Hi. apply find_some in Hi.
    destruct Hi as [Hin Hk]. apply String.eqb_eq in Hk.
    exact (Hwf i Hin Hk Hv).
Qed.

(** X5.  The three outcomes of [parse_by_colon], by the lines of the text
    (its pieces between line feeds).  It raises from the value subscript
    exactly when some line, first or not, has the key and no colon; it
    raises the lookup error exactly when no line has the key; it returns
    [v] exactly when every line with the key has a colon and [v] is the
    trimmed text after the first colon of the first of them. *)
Theorem parse_by_colon_outcomes (text field : string) :
  (parse_by_colon text field = Raise (IndexError ValuePart)
   <-> exists i, In i (split LF text)
                 /\ line_key i = field /\ contains ":" i = false)
  /\ (parse_by_colon text field = Raise (IndexError FirstMatch)
      <-> forall i, In i (split LF text) -> line_key i <> field)
  /\ (forall v,
        parse_by_colon text field = Ok v
        <-> (forall i, In i (split LF text) ->
                       line_key i = field -> contains ":" i = true)
            /\ exists i, first_match field (split LF text) = Some i
                         /\ line_value i = Some v).
Proof.
  rewrite parse_by_colon_cases.
  set (ls := split LF text).
  assert (Hbad : existsb (colonless_match field) ls = true
                 <-> exists i, In i ls /\ line_key i = field
                               /\ contains ":" i = false).
  { rewrite existsb_exists. unfold colonless_match. split.
    - intros (i & Hi & H). apply andb_prop in H. destruct H as [Hk Hc].
      apply String.eqb_eq in Hk. apply negb_true_iff in Hc. eauto.
    - intros (i & Hi & Hk & Hc). exists i. split; [exact Hi |].
      rewrite Hk, String.eqb_refl, Hc. reflexivity. }
  destruct (existsb (colonless_match field) ls) eqn:E.
  - destruct (proj1 Hbad eq_refl) as (i & Hi & Hk & Hc).
    split; [| split].
    + split; [intros _; eauto | reflexivity].
    + split; [discriminate |]. intros H. exfalso. exact (H i Hi Hk).
    + intros v. split; [discriminate |].
      intros [Hwf _]. rewrite (Hwf i Hi Hk) in Hc. discriminate.
  - assert (Hgood : forall i, In i ls -> line_key i = field ->
                              contains ":" i = true).
    { intros i Hi Hk. destruct (contains ":" i) eqn:Hc; [reflexivity |].
      assert (T : false = true) by (apply Hbad; eauto).
      discriminate. }
    destruct (first_match field ls) as [i |] eqn:Hfm.
    + assert (Hi : In i ls /\ line_key i = field).
      { unfold first_match in Hfm. apply find_some in Hfm.
        destruct Hfm as [Hi Hk]. apply String.eqb_eq in Hk. auto. }
      destruct Hi as [Hi Hk].
      destruct (line_value i) as [v0 |] eqn:Hv.
      * split; [| split].
        -- split; [discriminate |]. intros H. apply Hbad in H. discriminate.
        -- split; [discriminate |]. intros H. exfalso. exact (H i Hi Hk).
        -- intros v. split.
           ++ intros H; inversion H; subst. split; [exact Hgood | eauto].
           ++ intros [_ (i' & Hi' & Hv')]. congruence.
      * apply line_value_None in Hv. rewrite (Hgood i Hi Hk) in Hv. discriminate.
    + split; [| split].
      * split; [discriminate |]. intros H. apply Hbad in H. discriminate.
      * split; [intros _; apply first_match_None; exact Hfm | reflexivity].
      * intros v. split; [discriminate |].
        intros [_ (i' & Hi' & _)]. discriminate.
Qed.

(** X6.  A field name that holds a colon or a line feed, or that is not
    trimmed, is never found: whatever the text, [parse_by_colon] raises the
    lookup error. *)
Theorem parse_by_colon_unmatchable_field (text field : string) :
  contains ":" field = true \/ contains LF field = true \/ strip field <> field ->
  parse_by_colon text field = Raise (IndexError FirstMatch).
Proof.
  intros H. apply parse_by_colon_not_found, first_match_None.
  intros i Hi Hk.
  destruct H as [H | [H | H]].
  - rewrite <- Hk, line_key_no_colon in H. discriminate.
  - pose proof (split_pieces_no_sep LF text) as F.
    rewrite Forall_forall in F.
    rewrite <- Hk, (line_key_without LF i (F i Hi)) in H. discriminate.
  - apply H. rewrite <- Hk. apply line_key_stripped.
Qed.

Lemma parse_by_colon_unmatchable_field_witness :
  parse_by_colon md_detail_clean "State " = Raise (IndexError FirstMatch)
  /\ parse_by_colon md_detail_clean "State : clean" = Raise (IndexError FirstMatch).
Proof.
  split.
  - apply (parse_by_colon_unmatchable_field md_detail_clean "State ").
    right; right. discriminate.
  - apply (parse_by_colon_unmatchable_field md_detail_clean "State : clean").
    left. reflexivity.
Defined.

(** X7.  A value [parse_by_colon] returns is trimmed and lies on one line:
    stripping it again changes nothing and it holds no line feed. *)
Theorem parse_by_colon_value_shape (text field v : string) :
  parse_by_colon text field = Ok v ->
  strip v = v /\ contains LF v = false.
Proof.
  rewrite parse_by_colon_cases.
  destruct (existsb _ _); [discriminate |].
  destruct (first_match field (split LF text)) as [i |] eqn:Hfm; [| discriminate].
  destruct (line_value i) as [v0 |] eqn:Hv; [| discriminate].
  intros H; inversion H; subst v0.
  destruct (line_value_shape LF i v Hv) as [Hs Hlf].
  split; [exact Hs |]. apply Hlf.
  unfold first_match in Hfm. apply find_some in Hfm. destruct Hfm as [Hi _].
  pose proof (split_pieces_no_sep LF text) as F.
  rewrite Forall_forall in F. exact (F i Hi).
Qed.

Lemma parse_by_colon_value_shape_witness :
  strip "clean" = "clean" /\ contains LF "clean" = false.
Proof.
  exact (parse_by_colon_value_shape md_detail_clean "State" "clean" eq_refl).
Defined.

(** ** Polling what discovery printed *)

Lemma uint_digits_no_comma (d : Decimal.uint) :
  contains "," (NilEmpty.string_of_uint d) = false.
Proof. induction d; simpl; auto. Qed.

Lemma str_of_int_no_comma (i : Z) : contains "," (str_of_int i) = false.
Proof.
  unfold str_of_int.
  destruct (Z.to_int i) as [d | d]; simpl;
    destruct d; simpl; auto using uint_digits_no_comma.
Qed.

Lemma create_of_init (c : backend) (nm : string) (x : raid) :
  init c nm = Ok x -> contains "," nm = false ->
  RAID_create (slug c ++ "," ++ nm) = Ok x.
Proof.
  intros Hx Hnm. unfold RAID_create.
  rewrite (handle_split c nm Hnm), registry_slug. exact Hx.
Qed.

Lemma RAID_discover_In (re_match : string -> string -> option string)
    (h : host) (xs : list raid) (x : raid) :
  RAID_discover re_match h = Ok xs -> In x xs ->
  is_supported h (cls x) = true /\ init (cls x) (name x) = Ok x.
Proof.
  unfold RAID_discover. rewrite discover_loop_concat. intros H Hx.
  bind_inv H. inversion H; subst xs; clear H. simpl in Hx.
  destruct (mapM_filter_In _ _ _ _ Hm x Hx) as (c & ys & _ & Hc & Hys & Hin).
  pose proof (discover_cls re_match h c ys Hys x Hin) as E.
  rewrite E. split; [exact Hc |].
  exact (discover_init re_match h c ys Hys x Hin).
Qed.

(** X8.  Discover, then poll.  For an instance [x] in the result of
    [RAID.discover()] whose name holds no comma, the handle [str(x)] that
    [zabbix_discover] prints resolves back to [x]: [zabbix_status] and
    [zabbix_stable_name] on that handle give the [status] and the
    [stable_name] of [x]. *)
Theorem poll_discovered_handle (re_match : string -> string -> option string)
    (h : host) (xs : list raid) (x : raid) :
  RAID_discover re_match h = Ok xs ->
  In x xs ->
  contains "," (name x) = false ->
  RAID_create (RAID_str x) = Ok x
  /\ zabbix_status h (RAID_str x) = status h x
  /\ zabbix_stable_name h (RAID_str x) = stable_name h x.
Proof.
  intros Hxs Hx Hnm.
  destruct (RAID_discover_In _ _ _ _ Hxs Hx) as [_ Hinit].
  pose proof (create_of_init _ _ _ Hinit Hnm) as E.
  unfold zabbix_status, zabbix_stable_name, RAID_str in *.
  rewrite E. auto.
Qed.

Lemma poll_discovered_handle_witness :
  RAID_create "md_raid,0" = Ok (mk_raid MD_RAID "0")
  /\ zabbix_status (md_host md_detail_clean) "md_raid,0"
     = status (md_host md_detail_clean) (mk_raid MD_RAID "0")
  /\ zabbix_stable_name (md_host md_detail_clean) "md_raid,0"
     = stable_name (md_host md_detail_clean) (mk_raid MD_RAID "0").
Proof.
  apply (poll_discovered_handle md_host_re_match (md_host md_detail_clean)
           [mk_raid MD_RAID "0"] (mk_raid MD_RAID "0") eq_refl).
  - left; reflexivity.
  - reflexivity.
Defined.

(** X9.  Every handle of a MegaRAID discovery resolves: each discovered
    instance is named ["0:i"] for an index [i >= 0] below the exit status,
    and [RAID.create] on its handle returns it, with no condition on the
    host. *)
Theorem MegaRAID_SAS_discovered_resolve (h : host) (xs : list raid) (x : raid) :
  MegaRAID_SAS_discover h = Ok xs ->
  In x xs ->
  (exists n i, subprocess_call h [megacli; "-ldgetnum"; "-a0"] = Ok n
               /\ (0 <= i < n)%Z
               /\ x = mk_raid MegaRAID_SAS ("0:" ++ str_of_int i))
  /\ RAID_create (RAID_str x) = Ok x.
Proof.
  unfold MegaRAID_SAS_discover. intros H Hx. bind_inv H.
  destruct (mapM_In _ _ _ H x Hx) as (i & Hi & Hc).
  rewrite megaraid_init_index in Hc. inversion Hc; subst x; clear Hc.
  split.
  - exists a, i. split; [exact Hm |]. split; [| reflexivity].
    unfold range in Hi. apply in_map_iff in Hi. destruct Hi as (k & <- & Hk).
    apply in_seq in Hk. lia.
  - apply (create_of_init MegaRAID_SAS ("0:" ++ str_of_int i)).
    + exact (megaraid_init_index i).
    + simpl. apply str_of_int_no_comma.
Qed.

Lemma MegaRAID_SAS_discovered_resolve_witness :
  (exists n i, subprocess_call three_disk_host [megacli; "-ldgetnum"; "-a0"] = Ok n
               /\ (0 <= i < n)%Z
               /\ mk_raid MegaRAID_SAS "0:2"
                  = mk_raid MegaRAID_SAS ("0:" ++ str_of_int i))
  /\ RAID_create "megaraid_sas,0:2" = Ok (mk_raid MegaRAID_SAS "0:2").
Proof.
  apply (MegaRAID_SAS_discovered_resolve three_disk_host
           [mk_raid MegaRAID_SAS "0:0"; mk_raid MegaRAID_SAS "0:1";
            mk_raid MegaRAID_SAS "0:2"] (mk_raid MegaRAID_SAS "0:2") eq_refl).
  simpl; auto.
Defined.

(** ** Queries of the vendor tools *)

(** X10.  A [MegaRAID_SAS] instance the constructor accepted is named
    [adapter:disk] with no further colon; its later unpacking never fails,
    the tool is asked with [-l<disk>] and [-a<adapter>], and [status] and
    [stable_name] are the raw ["State"] and ["Name"] values of its answer,
    untranslated. *)
Theorem MegaRAID_SAS_query (h : host) (nm : string) (x : raid) :
  init MegaRAID_SAS nm = Ok x ->
  exists adapter disk,
    nm = adapter ++ ":" ++ disk
    /\ contains ":" adapter = false /\ contains ":" disk = false
    /\ status h x =
       (out <- check_output h [megacli; "-ldinfo"; "-l" ++ disk; "-a" ++ adapter] ;;
        parse_by_colon out "State")
    /\ stable_name h x =
       (out <- check_output h [megacli; "-ldinfo"; "-l" ++ disk; "-a" ++ adapter] ;;
        parse_by_colon out "Name").
Proof.
  intros Hx. pose proof (init_Ok _ _ _ Hx) as ->.
  simpl in Hx. bind_inv Hx. destruct a as [adapter disk].
  assert (Hs : split ":" nm = [adapter; disk]).
  { unfold unpack2 in Hm.
    destruct (split ":" nm) as [| p [| q [| ? ?]]]; try discriminate.
    inversion Hm; reflexivity. }
  destruct (split_two _ _ _ _ Hs) as (E & Ha & Hd).
  exists adapter, disk. repeat split; auto.
  - unfold status, MegaRAID_SAS_status, MegaRAID_SAS_ldinfo. simpl.
    rewrite Hs. reflexivity.
  - unfold stable_name, MegaRAID_SAS_ldinfo. simpl.
    rewrite Hs. reflexivity.
Qed.

Lemma MegaRAID_SAS_query_witness :
  exists adapter disk,
    "0:1" = adapter ++ ":" ++ disk
    /\ contains ":" adapter = false /\ contains ":" disk = false
    /\ status megaraid_host (mk_raid MegaRAID_SAS "0:1") =
       (out <- check_output megaraid_host
                 [megacli; "-ldinfo"; "-l" ++ disk; "-a" ++ adapter] ;;
        parse_by_colon out "State")
    /\ stable_name megaraid_host (mk_raid MegaRAID_SAS "0:1") =
       (out <- check_output megaraid_host
                 [megacli; "-ldinfo"; "-l" ++ disk; "-a" ++ adapter] ;;
        parse_by_colon out "Name").
Proof.
  exact (MegaRAID_SAS_query megaraid_host "0:1" (mk_raid MegaRAID_SAS "0:1")
           eq_refl).
Defined.

(** X11.  An [ssa] handle with any comma-free name resolves, and its stable
    name is that name on every host, no tool being run.  When the name does
    not split into exactly two parts at colons, its status cannot be read
    on any host: [zabbix_status] raises the unpacking [ValueError] before a
    tool is run. *)
Theorem SSA_malformed_name (h : host) (nm : string) :
  contains "," nm = false ->
  RAID_create ("ssa," ++ nm) = Ok (mk_raid SSA nm)
  /\ zabbix_stable_name h ("ssa," ++ nm) = Ok nm
  /\ (length (split ":" nm) <> 2%nat ->
      zabbix_status h ("ssa," ++ nm)
      = Raise (ValueError_unpack (length (split ":" nm)))).
Proof.
  intros Hnm.
  assert (E : RAID_create ("ssa," ++ nm) = Ok (mk_raid SSA nm)).
  { change ("ssa," ++ nm) with (slug SSA ++ "," ++ nm).
    apply create_of_init; [reflexivity | exact Hnm]. }
  unfold zabbix_stable_name, zabbix_status. rewrite E.
  split; [reflexivity |]. split; [reflexivity |].
  intros Hlen.
  cbn [bind]. unfold status, SSA_status. cbn [cls name].
  destruct (split ":" nm) as [| p [| q [| ? ?]]]; simpl in *;
    try reflexivity. contradiction.
Qed.

Lemma SSA_malformed_name_witness :
  RAID_create "ssa,slot0" = Ok (mk_raid SSA "slot0")
  /\ zabbix_stable_name (ssa_host (ssa_detail "OK")) "ssa,slot0" = Ok "slot0"
  /\ zabbix_status (ssa_host (ssa_detail "OK")) "ssa,slot0"
     = Raise (ValueError_unpack 1).
Proof.
  destruct (SSA_malformed_name (ssa_host (ssa_detail "OK")) "slot0" eq_refl)
    as (H1 & H2 & H3).
  split; [exact H1 |]. split; [exact H2 |].
  apply H3. simpl; lia.
Defined.

(** ** Discovery of each technology *)

Section Discovery.

Variable re_match : string -> string -> option string.

Lemma mapM_Ok_map {A B : Type} (g : A -> B) (xs : list A) :
  mapM (fun a => Ok (g a)) xs = Ok (map g xs).
Proof. apply mapM_pointwise; reflexivity. Qed.

Lemma SSA_arrays_all (h : host) (outs : string -> string) (ctrls : list string)
    (acc : list (string * string)) :
  (forall i, In i ctrls ->
     check_output h [ssacli; "ctrl"; "slot=" ++ i; "array"; "all"; "show"]
     = Ok (outs i)) ->
  SSA_arrays re_match h ctrls acc
  = Ok (acc ++ flat_map
                 (fun i => map (fun g => (i, g))
                             (matched_groups re_match ".*Array ([A-Z]) \("
                                (split LF (outs i))))
                 ctrls)%list.
Proof.
  revert acc; induction ctrls as [| i rest IH]; intros acc Hall;
    cbn [SSA_arrays flat_map].
  - rewrite app_nil_r; reflexivity.
  - rewrite (Hall i (or_introl eq_refl)). cbn [bind].
    rewrite IH by (intros j Hj; apply Hall; right; exact Hj).
    rewrite <- app_assoc. reflexivity.
Qed.

Lemma SSA_arrays_first_failure (h : host) (outs : string -> string)
    (before after : list string) (i : string) (e : exn)
    (acc : list (string * string)) :
  (forall j, In j before ->
     check_output h [ssacli; "ctrl"; "slot=" ++ j; "array"; "all"; "show"]
     = Ok (outs j)) ->
  check_output h [ssacli; "ctrl"; "slot=" ++ i; "array"; "all"; "show"]
  = Raise e ->
  SSA_arrays re_match h (before ++ i :: after) acc = Raise e.
Proof.
  revert acc; induction before as [| j rest IH]; intros acc Hall Hi;
    cbn [SSA_arrays app].
  - rewrite Hi; reflexivity.
  - rewrite (Hall j (or_introl eq_refl)). cbn [bind].
    apply IH; [intros k Hk; apply Hall; right; exact Hk | exact Hi].
Qed.

(** X12.  [SSA.discover()] in two phases.  With [out] the answer to
    [ctrl all show] and [ctrls] the slots matched in its lines: if the
    listing of every slot succeeds, the result is, slot after slot in that
    order, one instance [slot:letter] for each array line matched in the
    slot's listing, in the order of the lines (so it is empty, and no
    listing is asked for, when no slot is matched); if the listing of a
    slot fails after those before it succeeded, that failure is the
    outcome and nothing is returned. *)
Theorem SSA_discover_two_phase (h : host) (out : string)
    (outs : string -> string) :
  check_output h [ssacli; "ctrl"; "all"; "show"] = Ok out ->
  let ctrls :=
    matched_groups re_match "Smart Array .+ in Slot (\d+).+" (split LF out) in
  ((forall i, In i ctrls ->
      check_output h [ssacli; "ctrl"; "slot=" ++ i; "array"; "all"; "show"]
      = Ok (outs i)) ->
   SSA_discover re_match h
   = Ok (flat_map
           (fun i =>
              map (fun g => mk_raid SSA (i ++ ":" ++ g))
                  (matched_groups re_match ".*Array ([A-Z]) \(" (split LF (outs i))))
           ctrls))
  /\ (forall before i after e,
        ctrls = (before ++ i :: after)%list ->
        (forall j, In j before ->
           check_output h [ssacli; "ctrl"; "slot=" ++ j; "array"; "all"; "show"]
           = Ok (outs j)) ->
        check_output h [ssacli; "ctrl"; "slot=" ++ i; "array"; "all"; "show"]
        = Raise e ->
        SSA_discover re_match h = Raise e).
Proof.
  intros Hout ctrls. unfold SSA_discover. rewrite Hout. cbn [bind]. fold ctrls.
  split.
  - intros Hall. rewrite (SSA_arrays_all h outs ctrls [] Hall). cbn [bind app].
    unfold construct, init.
    rewrite (mapM_Ok_map (fun p => mk_raid SSA (fst p ++ ":" ++ snd p))).
    f_equal. clear. induction ctrls as [| i rest IH]; cbn [flat_map map];
      [reflexivity |].
    rewrite map_app, IH. f_equal.
    rewrite map_map. reflexivity.
  - intros before i after e Hc Hall Hi. rewrite Hc.
    rewrite (SSA_arrays_first_failure h outs before after i e [] Hall Hi).
    reflexivity.
Qed.

(** X13.  [MD_RAID.discover()] fails only if [/proc/mdstat] cannot be
    read, with that failure; otherwise it returns one instance per line
    the pattern matches, named by the matched number, in the order of the
    file, hence no more instances than lines. *)
Theorem MD_RAID_discover_lines (h : host) :
  (forall e, open_lines h mdstat = Raise e -> MD_RAID_discover re_match h = Raise e)
  /\ (forall ls, open_lines h mdstat = Ok ls ->
        MD_RAID_discover re_match h
        = Ok (map (mk_raid MD_RAID) (matched_groups re_match "^md(\d+)\s+:" ls))
        /\ (length (matched_groups re_match "^md(\d+)\s+:" ls) <= length ls)%nat).
Proof.
  unfold MD_RAID_discover. split.
  - intros e ->. reflexivity.
  - intros ls ->. cbn [bind]. split.
    + unfold construct, init. apply mapM_Ok_map.
    + generalize "^md(\d+)\s+:". intros pat.
      induction ls as [| l rest IH]; simpl; [lia |].
      destruct (re_match pat l); simpl; lia.
Qed.

(** X14.  On a host where exactly one class is supported, [RAID.discover()]
    is the [discover()] of that class, its failure included: the tools of
    the other classes are not run. *)
Theorem RAID_discover_single (h : host) (c : backend) :
  is_supported h c = true ->
  (forall d, d <> c -> is_supported h d = false) ->
  RAID_discover re_match h = discover re_match h c.
Proof.
  intros Hc Hother. unfold RAID_discover. rewrite registry_items.
  cbn [discover_loop].
  destruct c.
  - rewrite Hc, (Hother SSA), (Hother MD_RAID) by discriminate.
    destruct (discover re_match h MegaRAID_SAS); reflexivity.
  - rewrite Hc, (Hother MegaRAID_SAS), (Hother MD_RAID) by discriminate.
    destruct (discover re_match h SSA); reflexivity.
  - rewrite Hc, (Hother MegaRAID_SAS), (Hother SSA) by discriminate.
    destruct (discover re_match h MD_RAID); reflexivity.
Qed.

End Discovery.

Lemma SSA_discover_two_phase_witness :
  SSA_discover ssa_host_re_match ssa_listing_host
  = Ok [mk_raid SSA "0:A"; mk_raid SSA "0:B"].
Proof.
  apply (proj1 (SSA_discover_two_phase ssa_host_re_match ssa_listing_host
                  (text_of_lines
                     [""; "Smart Array P440ar in Slot 0 (Embedded)"; ""])
                  (fun _ => text_of_lines
                     [""; "Smart Array P440ar in Slot 0 (Embedded)"; "";
                      "   Array A (SAS, Unused Space: 0  MB)"; "";
                      "   Array B (SAS, Unused Space: 0  MB)"; ""])
                  eq_refl)).
  intros i [<- | []]. reflexivity.
Defined.

Lemma RAID_discover_single_witness :
  RAID_discover md_host_re_match (md_host md_detail_clean)
  = discover md_host_re_match (md_host md_detail_clean) MD_RAID.
Proof.
  apply (RAID_discover_single md_host_re_match (md_host md_detail_clean) MD_RAID).
  - reflexivity.
  - intros [| |] H; [reflexivity | reflexivity | contradiction].
Defined.

(** ** The discovery report *)

Lemma mapM_Forall2 {A B : Type} (f : A -> result B) (xs : list A) (ys : list B) :
  mapM f xs = Ok ys <-> Forall2 (fun x y => f x = Ok y) xs ys.
Proof.
  revert ys; induction xs as [| x rest IH]; intros ys; simpl.
  - split; [intros H; inversion H; constructor | intros H; inversion H; reflexivity].
  - split.
    + intros H. do 2 bind_inv H. inversion H; subst.
      constructor; [assumption | apply IH; assumption].
    + intros H. inversion H as [| ? y ? ys' Hx Hrest]; subst.
      rewrite Hx. cbn [bind]. rewrite (proj2 (IH ys') Hrest). reflexivity.
Qed.

Lemma mapM_Raise {A B : Type} (f : A -> result B) (xs : list A) (x : A) (e : exn) :
  In x xs -> f x = Raise e -> exists e', mapM f xs = Raise e'.
Proof.
  induction xs as [| y rest IH]; simpl; [tauto |].
  intros [-> | Hin] Hx.
  - rewrite Hx. eexists; reflexivity.
  - destruct (f y) as [b | e0]; [| eexists; reflexivity]. cbn [bind].
    destruct (IH Hin Hx) as [e' ->]. eexists; reflexivity.
Qed.

Lemma discovery_rows_Forall2 (h : host) (xs : list raid)
    (rows : list (string * string)) :
  Forall2 (fun x row => discovery_row h x = Ok row) xs rows <->
  Forall2 (fun x nm => stable_name h x = Ok nm) xs (map snd rows)
  /\ map fst rows = map RAID_str xs.
Proof.
  split.
  - induction 1 as [| x row xs' rows' Hrow _ IH]; simpl.
    + split; [constructor | reflexivity].
    + unfold discovery_row in Hrow. bind_inv Hrow.
      inversion Hrow; subst; simpl. destruct IH as [IH1 IH2].
      split; [constructor; assumption | f_equal; assumption].
  - revert rows; induction xs as [| x xs' IH]; intros rows [H1 H2].
    + destruct rows; [constructor | discriminate].
    + destruct rows as [| [idx nm] rows']; [discriminate |].
      cbn [map fst snd] in H1, H2.
      inversion H1 as [| ? ? ? ? Hx Hrest]; subst.
      injection H2 as Hidx Hfst.
      constructor; [| apply IH; auto].
      unfold discovery_row. rewrite Hx. cbn [bind]. rewrite Hidx. reflexivity.
Qed.

Section Report.

Variable re_match : string -> string -> option string.

(** X15.  The discovery report is all or nothing.  With [xs] the result of
    [RAID.discover()], [zabbix_discover] prints a report exactly when
    [stable_name] succeeds for every instance of [xs]; the report then
    lists, in the order of [xs], the handle of each instance with its
    stable name.  One instance whose [stable_name] raises leaves no
    report at all. *)
Theorem zabbix_discover_report (h : host) (xs : list raid) :
  RAID_discover re_match h = Ok xs ->
  (forall out,
      zabbix_discover re_match h = Ok out
      <-> exists names,
            Forall2 (fun x nm => stable_name h x = Ok nm) xs names
            /\ out = json_dumps_data (combine (map RAID_str xs) names))
  /\ (forall x e, In x xs -> stable_name h x = Raise e ->
        exists e', zabbix_discover re_match h = Raise e').
Proof.
  intros Hxs. unfold zabbix_discover. rewrite Hxs. cbn [bind]. split.
  - intros out. split.
    + intros H. bind_inv H. inversion H; subst out; clear H.
      apply mapM_Forall2, discovery_rows_Forall2 in Hm. destruct Hm as [Hn Hf].
      exists (map snd a). split; [exact Hn |].
      rewrite <- Hf. f_equal.
      clear. induction a as [| [i n] rest IH]; simpl; [| rewrite <- IH]; reflexivity.
    + intros (names & Hn & ->).
      assert (E : mapM (discovery_row h) xs
                  = Ok (combine (map RAID_str xs) names)).
      { apply mapM_Forall2. clear Hxs.
        induction Hn as [| x nm xs' names' Hx _ IH]; simpl; constructor.
        - unfold discovery_row. rewrite Hx. reflexivity.
        - exact IH. }
      rewrite E. reflexivity.
  - intros x e Hx He.
    destruct (mapM_Raise (discovery_row h) xs x e Hx) as [e' E].
    + unfold discovery_row. rewrite He. reflexivity.
    + rewrite E. eexists; reflexivity.
Qed.

End Report.

Lemma zabbix_discover_report_witness :
  exists e',
    zabbix_discover md_host_re_match (md_host "State : clean") = Raise e'.
Proof.
  apply (proj2 (zabbix_discover_report md_host_re_match (md_host "State : clean")
                  [mk_raid MD_RAID "0"] eq_refl)
           (mk_raid MD_RAID "0") (IndexError FirstMatch)).
  - left; reflexivity.
  - reflexivity.
Defined.

Lemma all_chars_app (p : ascii -> bool) (a b : string) :
  all_chars p (a ++ b) = all_chars p a && all_chars p b.
Proof.
  induction a as [| c a' IH]; simpl; [reflexivity |].
  rewrite IH, andb_assoc; reflexivity.
Qed.

Lemma all_chars_concat (p : ascii -> bool) (sep : string) (ls : list string) :
  all_chars p sep = true ->
  Forall (fun w => all_chars p w = true) ls ->
  all_chars p (String.concat sep ls) = true.
Proof.
  intros Hsep. induction 1 as [| w rest Hw Hrest IH]; [reflexivity |].
  destruct rest as [| w' rest'].
  - exact Hw.
  - change (String.concat sep (w :: w' :: rest'))
      with (w ++ sep ++ String.concat sep (w' :: rest')).
    rewrite !all_chars_app, Hw, Hsep, IH. reflexivity.
Qed.

Lemma json_escape_char_printable (c : ascii) :
  all_chars printable (json_escape_char c) = true.
Proof.
  destruct c as [[] [] [] [] [] [] [] []]; reflexivity.
Qed.

Lemma json_escape_printable (s : string) :
  all_chars printable (json_escape s) = true.
Proof.
  induction s as [| c s' IH]; simpl; [reflexivity |].
  rewrite all_chars_app, json_escape_char_printable, IH. reflexivity.
Qed.

Lemma json_str_printable (s : string) :
  all_chars printable (json_str s) = true.
Proof.
  unfold json_str. cbn [all_chars].
  rewrite all_chars_app, json_escape_printable. reflexivity.
Qed.

Lemma json_row_printable (row : string * string) :
  all_chars printable (json_row row) = true.
Proof.
  unfold json_row.
  repeat (rewrite all_chars_app || rewrite json_str_printable).
  reflexivity.
Qed.

Lemma json_dumps_data_printable (rows : list (string * string)) :
  all_chars printable (json_dumps_data rows) = true.
Proof.
  unfold json_dumps_data.
  repeat (rewrite all_chars_app || rewrite json_str_printable).
  rewrite all_chars_concat; [reflexivity | reflexivity |].
  apply Forall_forall. intros w Hw. apply in_map_iff in Hw.
  destruct Hw as (row & <- & _). apply json_row_printable.
Qed.

(** X16.  Whatever the vendor tools answered, the report [zabbix_discover]
    prints is one line of printable ASCII: each of its characters lies
    between SPACE and TILDE. *)
Theorem zabbix_discover_printable (re_match : string -> string -> option string)
    (h : host) (out : string) :
  zabbix_discover re_match h = Ok out ->
  all_chars printable out = true.
Proof.
  unfold zabbix_discover. intros H. do 2 bind_inv H.
  inversion H; subst out. apply json_dumps_data_printable.
Qed.

Lemma zabbix_discover_printable_witness :
  all_chars printable
    ("{" ++ json_str "data" ++ ": [" ++ json_row ("md_raid,0", "homehost:arrayname")
         ++ "]}") = true.
Proof.
  exact (zabbix_discover_printable md_host_re_match (md_host md_detail_clean)
           _ eq_refl).
Defined.

(** X17.  On a host where no class is supported, [RAID.discover()] returns
    the empty list without running a tool, and [zabbix_discover] prints the
    report with an empty [data] list. *)
Theorem zabbix_discover_unsupported_host
    (re_match : string -> string -> option string) (h : host) :
  (forall c, is_supported h c = false) ->
  RAID_discover re_match h = Ok []
  /\ zabbix_discover re_match h
     = Ok ("{" ++ String QUOTE ("data" ++ String QUOTE ": []}")).
Proof.
  intros Hno.
  assert (E : RAID_discover re_match h = Ok []).
  { unfold RAID_discover. rewrite registry_items. cbn [discover_loop].
    rewrite !Hno. reflexivity. }
  split; [exact E |].
  unfold zabbix_discover. rewrite E. reflexivity.
Qed.

Lemma zabbix_discover_unsupported_host_witness :
  RAID_discover md_host_re_match bare_host = Ok []
  /\ zabbix_discover md_host_re_match bare_host
     = Ok ("{" ++ String QUOTE ("data" ++ String QUOTE ": []}")).
Proof.
  apply (zabbix_discover_unsupported_host md_host_re_match bare_host).
  intros c; destruct c; reflexivity.
Defined.

(** ** Names with commas *)

(** X18.  Commas in a name are not escaped: the handle of an instance
    whose name holds a comma does not resolve.  [RAID.create] finds the
    slug, passes two or more fields to the constructor and fails with its
    arity [TypeError]. *)
Theorem create_name_with_comma (x : raid) :
  contains "," (name x) = true ->
  exists n, (2 <= n)%nat
            /\ n = length (split "," (name x))
            /\ RAID_create (RAID_str x) = Raise (TypeError_arity n).
Proof.
  intros Hc. destruct x as [c nm]. simpl in *.
  exists (length (split "," nm)).
  pose proof (split_with_sep _ _ Hc) as Hlen.
  split; [exact Hlen |]. split; [reflexivity |].
  unfold RAID_create, RAID_str. cbn [cls name].
  change (slug c ++ "," ++ nm) with (slug c ++ String "," nm).
  rewrite (split_app _ _ _ (slug_no_comma c)), registry_slug.
  destruct (split "," nm) as [| a [| b rest]]; simpl in *; try lia.
  reflexivity.
Qed.

Lemma create_name_with_comma_witness :
  exists n, (2 <= n)%nat
            /\ n = length (split "," "0,A")
            /\ RAID_create "ssa,0,A" = Raise (TypeError_arity n).
Proof.
  exact (create_name_with_comma (mk_raid SSA "0,A") eq_refl).
Defined.

(** ** Lines without the key *)

Lemma split_app_any (sep : ascii) (a b : string) :
  split sep (a ++ String sep b) = (split sep a ++ split sep b)%list.
Proof.
  induction a as [| c a' IH]; simpl.
  - rewrite Ascii.eqb_refl; reflexivity.
  - destruct (Ascii.eqb c sep); rewrite IH; [reflexivity |].
    pose proof (split_not_nil sep a') as Hn.
    destruct (split sep a') as [| w ws]; [contradiction | reflexivity].
Qed.

Lemma matching_values_app (field : string) (l1 l2 : list string) :
  matching_values field (l1 ++ l2) =
  (vs1 <- matching_values field l1 ;;
   vs2 <- matching_values field l2 ;;
   Ok (vs1 ++ vs2)%list).
Proof.
  induction l1 as [| i rest IH].
  - simpl. destruct (matching_values field l2); reflexivity.
  - change ((i :: rest) ++ l2)%list with (i :: (rest ++ l2))%list.
    rewrite !matching_values_cons.
    destruct (String.eqb (line_key i) field); [| exact IH].
    destruct (line_value i) as [v |]; [| reflexivity].
    rewrite IH.
    destruct (matching_values field rest) as [vs1 | e]; [| reflexivity].
    cbn [bind].
    destruct (matching_values field l2) as [vs2 | e]; reflexivity.
Qed.

(** X19.  Lines without the key are ignored wherever they stand: putting a
    text none of whose lines has the key before or after another text, on
    lines of its own, does not change what [parse_by_colon] returns or
    raises. *)
Theorem parse_by_colon_ignores_other_lines (text other field : string) :
  (forall i, In i (split LF other) -> line_key i <> field) ->
  parse_by_colon (text ++ String LF other) field = parse_by_colon text field
  /\ parse_by_colon (other ++ String LF text) field = parse_by_colon text field.
Proof.
  intros Hother.
  assert (E : matching_values field (split LF other) = Ok []).
  { apply matching_values_no_match, first_match_None, Hother. }
  unfold parse_by_colon. rewrite !split_app_any, !matching_values_app, E.
  split.
  - destruct (matching_values field (split LF text)) as [vs |]; [| reflexivity].
    cbn [bind]. rewrite app_nil_r. reflexivity.
  - cbn [bind].
    destruct (matching_values field (split LF text)) as [vs |]; reflexivity.
Qed.

Lemma parse_by_colon_ignores_other_lines_witness :
  parse_by_colon ("State : clean" ++ String LF "Version : 1.2") "State"
  = parse_by_colon "State : clean" "State"
  /\ parse_by_colon ("Version : 1.2" ++ String LF "State : clean") "State"
     = parse_by_colon "State : clean" "State".
Proof.
  apply (parse_by_colon_ignores_other_lines "State : clean" "Version : 1.2" "State").
  intros i [<- | []]. discriminate.
Defined.
